(** * waifu2x-ncnn-Vulkan VapourSynth plugin: filter construction, teardown
      and the per-frame concurrency gate (plugin.cpp).

    The embedding follows plugin.cpp statement by statement:
    - the global [numGPUInstances] counter and ncnn's global GPU instance
      are an explicit world state threaded through every call;
    - the try/catch block of [waifu2xCreate] is a
      small state-and-exit monad (fall through / throw / early return);
    - calls to the external collaborators (ncnn, the Waifu2x engine, the
      VapourSynth API) are recorded in a call trace;
    - the per-frame [filter] function is a thread program of three steps
      (acquire, process, release) run under an arbitrary interleaving. *)

From Stdlib Require Import ZArith String Ascii List Bool Lia ZifyBool DecimalString.
From stdpp Require Import base gmap strings list.

Local Open Scope string_scope.
Local Open Scope list_scope.
Local Open Scope Z_scope.

(* ===================================================================== *)
(** ** C++ integers and strings *)
(* ===================================================================== *)

Module Cpp.

Definition INT_MAX : Z := 2147483647.
Definition INT_MIN : Z := -2147483648.

(** [static_cast<uint32_t>(x)] for an [int] x. *)
Definition to_uint32 (x : Z) : Z := x mod 2 ^ 32.

(** [std::to_string] on an integer: decimal digits, a leading minus sign
    for negative numbers. *)
Definition to_string (z : Z) : string := NilZero.string_of_int (Z.to_int z).

(** [s.rfind(c)]: index of the last occurrence of [c]; [None] is
    [std::string::npos]. *)
Fixpoint rfind (c : ascii) (s : string) : option nat :=
  match s with
  | EmptyString => None
  | String a rest =>
      match rfind c rest with
      | Some i => Some (S i)
      | None => if Ascii.eqb a c then Some O else None
      end
  end.

(** [s.substr(0, count)] where [count] may be [npos]: the first
    [min(count, size)] characters. *)
Definition substr0 (s : string) (count : option nat) : string :=
  match count with
  | Some n => String.substring 0 n s
  | None => s
  end.

(** The operand of a [throw] of C-string type. A string literal has
    static storage; [c_str()] of a temporary [std::string] points into a
    buffer that is destroyed before the handler runs. *)
Inductive CStr : Type :=
| Literal (s : string)
| TempBuffer (s : string).

(** Reading the C string in the handler: defined for a literal,
    indeterminate ([None]) for a pointer into a destroyed temporary. *)
Definition read_cstr (p : CStr) : option string :=
  match p with
  | Literal s => Some s
  | TempBuffer _ => None
  end.

End Cpp.

(* ===================================================================== *)
(** ** VapourSynth API (VapourSynth4.h, VSHelper4.h) *)
(* ===================================================================== *)

Module VS.

Inductive VSColorFamily := cfUndefined | cfGray | cfRGB | cfYUV.
Inductive VSSampleType := stInteger | stFloat.

Record VSVideoFormat := {
  colorFamily : VSColorFamily;
  sampleType : VSSampleType;
  bitsPerSample : Z;
  bytesPerSample : Z
}.

Record VSVideoInfo := {
  format : VSVideoFormat;
  width : Z;
  height : Z
}.

(** A node of the filter graph: an upstream clip, the clip made by the
    text plugin's [Text] function from a clip and a text, or the node that
    [createVideoFilter] makes for a filter with the given name, output
    video info and single dependency. *)
Inductive VSNode : Type :=
| Clip (id : nat) (vi : VSVideoInfo)
| TextClip (clip : VSNode) (text : string)
| FilterClip (name : string) (vi : VSVideoInfo) (dep : VSNode).

Fixpoint getVideoInfo (n : VSNode) : VSVideoInfo :=
  match n with
  | Clip _ vi => vi
  | TextClip c _ => getVideoInfo c
  | FilterClip _ vi _ => vi
  end.

#[global] Instance VSColorFamily_eq_dec : EqDecision VSColorFamily.
Proof. solve_decision. Defined.
#[global] Instance VSSampleType_eq_dec : EqDecision VSSampleType.
Proof. solve_decision. Defined.

(** [vsh::isConstantVideoFormat]. *)
Definition isConstantVideoFormat (vi : VSVideoInfo) : bool :=
  (0 <? height vi) && (0 <? width vi)
  && negb (bool_decide (colorFamily (format vi) = cfUndefined)).

(** The input map of a filter invocation: the mandatory [clip] node and the
    optional integer arguments, keyed by name (int64 values). *)
Record VSMap := {
  clip : VSNode;
  ints : gmap string Z
}.

(** [mapGetInt(in, key, 0, &err)]: the value and the error flag; a missing
    key gives 0 and sets the flag. *)
Definition mapGetInt (m : VSMap) (key : string) : Z * bool :=
  match ints m !! key with
  | Some v => (v, false)
  | None => (0, true)
  end.

(** [mapGetIntSaturated]: as [mapGetInt], the value clamped to [int]. *)
Definition mapGetIntSaturated (m : VSMap) (key : string) : Z * bool :=
  let '(v, err) := mapGetInt m key in
  (Z.max Cpp.INT_MIN (Z.min Cpp.INT_MAX v), err).

End VS.

(* ===================================================================== *)
(** ** ncnn GPU instance and the plugin's global counter *)
(* ===================================================================== *)

Module Ncnn.

Record GpuInfo := {
  device_name : string;
  compute_queue_count : Z      (* uint32_t *)
}.

End Ncnn.

(** What the plugin sees of its surroundings during one construction. *)
Record Env := {
  gpu_available : bool;              (* ncnn can create a Vulkan instance *)
  gpus : list Ncnn.GpuInfo;          (* ncnn::get_gpu_info(i), i < get_gpu_count() *)
  default_gpu_index : Z;             (* ncnn::get_default_gpu_index() *)
  plugin_path : string;              (* vsapi->getPluginPath(...) *)
  file_opens : string -> bool;       (* std::ifstream{path}.is_open() *)
  text_error : option string;        (* error of the text plugin's Text, if any *)
  weights_error : string -> string -> option string
                                     (* what the engine finds wrong with the param
                                        and bin file at these paths, if anything *)
}.

Definition get_gpu_count (env : Env) : Z := Z.of_nat (length (gpus env)).

Definition get_gpu_info (env : Env) (i : Z) : Ncnn.GpuInfo :=
  nth (Z.to_nat i) (gpus env)
      {| Ncnn.device_name := ""; Ncnn.compute_queue_count := 0 |}.

(* ===================================================================== *)
(** ** The Waifu2x inference engine (external collaborator) *)
(* ===================================================================== *)

Module Engine.

(** Modelled from the spec: the Waifu2x class of waifu2x.h, which is not
    among the sources. Section 4.3 gives its contract: construct(device id,
    augmentation flag, engine-thread count); load(weights path,
    full-precision flag), which fails with ModelLoadError on a bad path or
    format; mutable fields noise, scale, tile width/height, padding set
    after the load. The record keeps what the plugin passed in; the network
    itself is opaque. *)
Record Waifu2x := {
  gpuid : Z;
  tta_mode : bool;
  num_threads : Z;
  loaded : option (string * string * bool);   (* parampath, modelpath, fp32 *)
  noise : Z;
  scale : Z;
  tile_w : Z;
  tile_h : Z;
  prepadding : Z
}.

(** [Waifu2x(gpuid, tta_mode, num_threads)]. *)
Definition new (gpuid : Z) (tta_mode : bool) (num_threads : Z) : Waifu2x :=
  {| gpuid := gpuid; tta_mode := tta_mode; num_threads := num_threads;
     loaded := None; noise := 0; scale := 0; tile_w := 0; tile_h := 0;
     prepadding := 0 |}.

(** The engine with the weights of the two files in place. *)
Definition with_weights (w : Waifu2x) (parampath modelpath : string) (fp32 : bool)
  : Waifu2x :=
  {| gpuid := gpuid w; tta_mode := tta_mode w; num_threads := num_threads w;
     loaded := Some (parampath, modelpath, fp32);
     noise := noise w; scale := scale w; tile_w := tile_w w; tile_h := tile_h w;
     prepadding := prepadding w |}.

(** Modelled from the spec: [load(parampath, modelpath, fp32)] of the
    Waifu2x class, which is not among the sources. By section 4.3 it fails
    with ModelLoadError on a bad path or format: it reads the two files
    through [files], which tells what is wrong with the param and bin file
    at the given paths, if anything. The result is the error or the engine
    with the weights in place. *)
Definition load (files : string -> string -> option string)
  (w : Waifu2x) (parampath modelpath : string) (fp32 : bool) : string + Waifu2x :=
  match files parampath modelpath with
  | Some e => inl e
  | None => inr (with_weights w parampath modelpath fp32)
  end.

(** The five assignments [d->waifu2x->noise = noise; ...]. *)
Definition configure (w : Waifu2x) (n s tw th pad : Z) : Waifu2x :=
  {| gpuid := gpuid w; tta_mode := tta_mode w; num_threads := num_threads w;
     loaded := loaded w;
     noise := n; scale := s; tile_w := tw; tile_h := th; prepadding := pad |}.

End Engine.

(* ===================================================================== *)
(** ** World state: the global counter, ncnn's instance, the call trace *)
(* ===================================================================== *)

(** Calls to the collaborators, most recent first. *)
Inductive Call : Type :=
| create_gpu_instance_call
| destroy_gpu_instance_call
| Waifu2x_new_call (gpuid : Z) (tta : bool) (num_threads : Z)
| Waifu2x_load_call (parampath modelpath : string) (fp32 : bool)
| invoke_Text_call (clip : VS.VSNode) (text : string)
| freeNode_call (n : VS.VSNode).

Definition is_engine_new (c : Call) : bool :=
  match c with Waifu2x_new_call _ _ _ => true | _ => false end.

Definition is_gpu_destroy (c : Call) : bool :=
  match c with destroy_gpu_instance_call => true | _ => false end.

Record World := {
  numGPUInstances : Z;        (* static std::atomic<int> numGPUInstances *)
  gpu_instance : bool;        (* ncnn's global Vulkan instance exists *)
  calls : list Call
}.

(** Arithmetic on [std::atomic<int>] wraps around. *)
Definition wrap_int (x : Z) : Z := (x + 2 ^ 31) mod 2 ^ 32 - 2 ^ 31.

Definition in_int_range (x : Z) : Prop := Cpp.INT_MIN <= x <= Cpp.INT_MAX.

(** The product of two [int]s as the compiled code computes it: the low 32
    bits of the product, read as a signed number. *)
Definition mul_int (a b : Z) : Z := wrap_int (a * b).

Definition log (c : Call) (w : World) : World :=
  {| numGPUInstances := numGPUInstances w; gpu_instance := gpu_instance w;
     calls := c :: calls w |}.

(** [ncnn::create_gpu_instance()]: 0 on success (also when the instance
    exists already), -1 when no Vulkan instance can be created. *)
Definition create_gpu_instance (env : Env) (w : World) : Z * World :=
  let w := log create_gpu_instance_call w in
  if gpu_instance w then (0, w)
  else if gpu_available env then
    (0, {| numGPUInstances := numGPUInstances w; gpu_instance := true;
           calls := calls w |})
  else (-1, w).

(** [ncnn::destroy_gpu_instance()]. *)
Definition destroy_gpu_instance (w : World) : World :=
  {| numGPUInstances := numGPUInstances w; gpu_instance := false;
     calls := destroy_gpu_instance_call :: calls w |}.

(** [++numGPUInstances]. *)
Definition incr_numGPUInstances (w : World) : World :=
  {| numGPUInstances := wrap_int (numGPUInstances w + 1);
     gpu_instance := gpu_instance w; calls := calls w |}.

(** [if (--numGPUInstances == 0) ncnn::destroy_gpu_instance();] *)
Definition release_gpu (w : World) : World :=
  let n := wrap_int (numGPUInstances w - 1) in
  let w := {| numGPUInstances := n; gpu_instance := gpu_instance w;
              calls := calls w |} in
  if n =? 0 then destroy_gpu_instance w else w.

(** Calls made between an earlier world [w0] and a later world [w1]. *)
Definition calls_since (w0 w1 : World) : list Call :=
  take (length (calls w1) - length (calls w0))%nat (calls w1).

Definition engine_constructed (cs : list Call) : bool := existsb is_engine_new cs.

Definition gpu_destroyed (cs : list Call) : bool := existsb is_gpu_destroy cs.

(* ===================================================================== *)
(** ** The try block of waifu2xCreate as a state-and-exit monad *)
(* ===================================================================== *)

(** What ends up in the [out] map. *)
Inductive Out : Type :=
| OutError (msg : option string)   (* mapSetError; [None]: indeterminate text *)
| OutClip (n : VS.VSNode).         (* the "clip" entry *)

(** How a statement of the try block finishes. *)
Inductive Exit (A : Type) : Type :=
| Next (a : A)               (* control reaches the next statement *)
| Throw (e : Cpp.CStr)       (* throw of a C string *)
| Return (o : Out).          (* [return;] after [out] has been filled *)

Arguments Next {A} a.
Arguments Throw {A} e.
Arguments Return {A} o.

Definition M (A : Type) : Type := World -> Exit A * World.

Definition ret {A} (a : A) : M A := λ w, (Next a, w).

Definition bind {A B} (m : M A) (k : A -> M B) : M B :=
  λ w, match m w with
       | (Next a, w') => k a w'
       | (Throw e, w') => (Throw e, w')
       | (Return o, w') => (Return o, w')
       end.

Definition throw {A} (e : Cpp.CStr) : M A := λ w, (Throw e, w).

Definition return_with {A} (o : Out) : M A := λ w, (Return o, w).

(** A call that only changes the world. *)
Definition effect (f : World -> World) : M unit := λ w, (Next tt, f w).

(** A call that changes the world and gives a value. *)
Definition call {A} (f : World -> A * World) : M A :=
  λ w, let '(a, w') := f w in (Next a, w').

(** [if (c) throw e;] *)
Definition throw_when (c : bool) (e : Cpp.CStr) : M unit :=
  if c then throw e else ret tt.

Declare Scope plugin_scope.
Delimit Scope plugin_scope with plugin.
Notation "x <- m ;; k" := (bind m (λ x, k))
  (at level 100, m at next level, right associativity) : plugin_scope.
Notation "m ;;; k" := (bind m (λ _, k))
  (at level 100, right associativity) : plugin_scope.

(* ===================================================================== *)
(** ** plugin.cpp *)
(* ===================================================================== *)

(** [struct Waifu2xData]; the two [unique_ptr]s are [None] while empty. The
    semaphore is kept as the value its counter was constructed with. *)
Record Waifu2xData := {
  node : VS.VSNode;
  vi : VS.VSVideoInfo;
  waifu2x : option Engine.Waifu2x;
  semaphore : option Z
}.

(** The locals of [waifu2xCreate] read from the input map (lines 112-139). *)
Record Options := {
  noise : Z;
  scale : Z;
  tile_w : Z;
  tile_h : Z;
  model : Z;
  gpuId : Z;
  gpuThread : Z;
  tta : bool;
  fp32 : bool
}.

(** [!!x] on an integer. *)
Definition to_bool (x : Z) : bool := negb (x =? 0).

Definition read_options (env : Env) (inp : VS.VSMap) (vi : VS.VSVideoInfo) : Options :=
  let '(noise, _) := VS.mapGetIntSaturated inp "noise" in
  let '(scale, err) := VS.mapGetIntSaturated inp "scale" in
  let scale := if err then 2 else scale in
  let '(tile_w, err) := VS.mapGetIntSaturated inp "tile_w" in
  let tile_w := if err then Z.max (VS.width vi) 32 else tile_w in
  let '(tile_h, err) := VS.mapGetIntSaturated inp "tile_h" in
  let tile_h := if err then Z.max (VS.height vi) 32 else tile_h in
  let '(model, err) := VS.mapGetIntSaturated inp "model" in
  let model := if err then 2 else model in
  let '(gpuId, err) := VS.mapGetIntSaturated inp "gpu_id" in
  let gpuId := if err then default_gpu_index env else gpuId in
  let '(gpuThread, err) := VS.mapGetIntSaturated inp "gpu_thread" in
  let gpuThread := if err then 2 else gpuThread in
  let tta := to_bool (fst (VS.mapGetInt inp "tta")) in
  let fp32 := to_bool (fst (VS.mapGetInt inp "fp32")) in
  {| noise := noise; scale := scale; tile_w := tile_w; tile_h := tile_h;
     model := model; gpuId := gpuId; gpuThread := gpuThread;
     tta := tta; fp32 := fp32 |}.

(** The eight checks of lines 141-163, in source order; the result is the
    operand of the first [throw] reached, if any. *)
Definition validate (env : Env) (o : Options) : option Cpp.CStr :=
  if (noise o <? -1) || (noise o >? 3) then
    Some (Cpp.Literal "noise must be between -1 and 3 (inclusive)")
  else if (scale o <? 1) || (scale o >? 2) then
    Some (Cpp.Literal "scale must be 1 or 2")
  else if tile_w o <? 32 then
    Some (Cpp.Literal "tile_w must be at least 32")
  else if tile_h o <? 32 then
    Some (Cpp.Literal "tile_h must be at least 32")
  else if (model o <? 0) || (model o >? 2) then
    Some (Cpp.Literal "model must be between 0 and 2 (inclusive)")
  else if negb (model o =? 2) && (scale o =? 1) then
    Some (Cpp.Literal "only cunet model supports scale=1")
  else if (gpuId o <? 0) || (gpuId o >=? get_gpu_count env) then
    Some (Cpp.Literal "invalid GPU device")
  else
    let queue_count := Ncnn.compute_queue_count (get_gpu_info env (gpuId o)) in
    if (gpuThread o <? 1) || (Cpp.to_uint32 (gpuThread o) >? queue_count) then
      Some (Cpp.TempBuffer ("gpu_thread must be between 1 and "
                            +:+ Cpp.to_string queue_count +:+ " (inclusive)"))
    else None.

Definition newline : string := String (ascii_of_nat 10) EmptyString.

(** The loop of lines 168-169, from index [i] over the remaining devices. *)
Fixpoint list_gpu_loop (i : Z) (rest : list Ncnn.GpuInfo) (text : string) : string :=
  match rest with
  | [] => text
  | g :: rest' =>
      list_gpu_loop (i + 1) rest'
        (text +:+ (Cpp.to_string i +:+ ": " +:+ Ncnn.device_name g +:+ newline))
  end.

Definition list_gpu_text (env : Env) : string := list_gpu_loop 0 (gpus env) "".

(** [vsapi->invoke(text plugin, "Text", args)] with clip and text: the
    returned map holds an error or the new clip. *)
Definition invoke_Text (env : Env) (clip : VS.VSNode) (text : string)
  (w : World) : (string + VS.VSNode) * World :=
  let w := log (invoke_Text_call clip text) w in
  match text_error env with
  | Some e => (inl e, w)
  | None => (inr (VS.TextClip clip text), w)
  end.

(** Lines 209-227: the model directory and the padding for a model. A model
    outside 0..2 leaves both as initialised. *)
Definition model_dir_and_prepadding (env : Env) (o : Options) : string * Z :=
  let pluginPath := plugin_path env in
  let modelDir := Cpp.substr0 pluginPath (Cpp.rfind "/"%char pluginPath) +:+ "/models" in
  match model o with
  | 0 => (modelDir +:+ "/models-upconv_7_anime_style_art_rgb", 7)
  | 1 => (modelDir +:+ "/models-upconv_7_photo", 7)
  | 2 => (modelDir +:+ "/models-cunet",
          if (noise o =? -1) || (scale o =? 2) then 18 else 28)
  | _ => (modelDir, 0)
  end.

(** Lines 229-240: the two weight-file paths. *)
Definition model_paths (modelDir : string) (o : Options) : string * string :=
  if noise o =? -1 then
    (modelDir +:+ "/scale2.0x_model.param", modelDir +:+ "/scale2.0x_model.bin")
  else if scale o =? 1 then
    (modelDir +:+ "/noise" +:+ Cpp.to_string (noise o) +:+ "_model.param",
     modelDir +:+ "/noise" +:+ Cpp.to_string (noise o) +:+ "_model.bin")
  else
    (modelDir +:+ "/noise" +:+ Cpp.to_string (noise o) +:+ "_scale2.0x_model.param",
     modelDir +:+ "/noise" +:+ Cpp.to_string (noise o) +:+ "_scale2.0x_model.bin").

Local Open Scope plugin_scope.

(** Lines 102-106. *)
Definition unsupported_format (vi : VS.VSVideoInfo) : bool :=
  negb (VS.isConstantVideoFormat vi)
  || negb (bool_decide (VS.colorFamily (VS.format vi) = VS.cfRGB))
  || negb (bool_decide (VS.sampleType (VS.format vi) = VS.stFloat))
  || negb (VS.bitsPerSample (VS.format vi) =? 32).

(** [!!vsapi->mapGetInt(in, "list_gpu", 0, &err)], line 165. *)
Definition list_gpu (inp : VS.VSMap) : bool :=
  to_bool (fst (VS.mapGetInt inp "list_gpu")).

(** Throw the operand found by [validate], if any. *)
Definition throw_first (e : option Cpp.CStr) : M unit :=
  match e with
  | Some e => throw e
  | None => ret tt
  end.

(** The body of the try block, lines 98-267. [Next d] means that control
    leaves the block normally with the filled [Waifu2xData]. The two
    dimensions are multiplied as [int]s. A load that fails is, as section 7
    of the specification has it for ModelLoadError, rolled back and reported
    like the other errors of the construction: it arrives in the handler
    with the engine's text. *)
Definition try_block (env : Env) (inp : VS.VSMap) : M Waifu2xData :=
  let node := VS.clip inp in
  let vi := VS.getVideoInfo node in
  throw_when (unsupported_format vi)
    (Cpp.Literal "only constant RGB format 32 bit float input supported") ;;;
  rc <- call (create_gpu_instance env) ;;
  throw_when (negb (rc =? 0)) (Cpp.Literal "failed to create GPU instance") ;;;
  effect incr_numGPUInstances ;;;
  let o := read_options env inp vi in
  throw_first (validate env o) ;;;
  if list_gpu inp then
    r <- call (invoke_Text env node (list_gpu_text env)) ;;
    match r with
    | inl e =>
        effect release_gpu ;;;
        return_with (OutError (Some e))
    | inr n =>
        effect release_gpu ;;;
        return_with (OutClip n)
    end
  else if (noise o =? -1) && (scale o =? 1) then
    effect release_gpu ;;;
    return_with (OutClip node)
  else
    let vi := {| VS.format := VS.format vi;
                 VS.width := mul_int (VS.width vi) (scale o);
                 VS.height := mul_int (VS.height vi) (scale o) |} in
    let '(modelDir, prepadding) := model_dir_and_prepadding env o in
    let '(paramPath, modelPath) := model_paths modelDir o in
    throw_when (negb (file_opens env paramPath)) (Cpp.Literal "failed to load model") ;;;
    effect (log (Waifu2x_new_call (gpuId o) (tta o) 1)) ;;;
    let w2x := Engine.new (gpuId o) (tta o) 1 in
    effect (log (Waifu2x_load_call paramPath modelPath (fp32 o))) ;;;
    match Engine.load (weights_error env) w2x paramPath modelPath (fp32 o) with
    | inl e => throw (Cpp.Literal e)
    | inr w2x =>
        let w2x :=
          Engine.configure w2x (noise o) (scale o) (tile_w o) (tile_h o) prepadding in
        ret {| node := node; vi := vi; waifu2x := Some w2x;
               semaphore := Some (gpuThread o) |}
    end.

(** What one call of [waifu2xCreate] leaves behind: the [out] map and, when
    [createVideoFilter] was reached, the instance data handed over to it. *)
Record Created := {
  out : Out;
  instance : option Waifu2xData
}.

Definition error_prefix : string := "waifu2x-ncnn-Vulkan: ".

(** [waifu2xCreate]: the try block, its handler (lines 268-276) and the
    registration of the filter (lines 278-280). *)
Definition waifu2xCreate (env : Env) (inp : VS.VSMap) (w : World) : Created * World :=
  match try_block env inp w with
  | (Throw error, w) =>
      let msg := (λ e, error_prefix +:+ e) <$> Cpp.read_cstr error in
      let w := log (freeNode_call (VS.clip inp)) w in
      let w := release_gpu w in
      ({| out := OutError msg; instance := None |}, w)
  | (Return o, w) => ({| out := o; instance := None |}, w)
  | (Next d, w) =>
      ({| out := OutClip (VS.FilterClip "waifu2x-ncnn-Vulkan" (vi d) (node d));
          instance := Some d |}, w)
  end.

(** [waifu2xFree], lines 85-92. *)
Definition waifu2xFree (d : Waifu2xData) (w : World) : World :=
  let w := log (freeNode_call (node d)) w in
  release_gpu w.

(** The values of the locals for an input, as [waifu2xCreate] resolves them. *)
Definition resolved (env : Env) (inp : VS.VSMap) : Options :=
  read_options env inp (VS.getVideoInfo (VS.clip inp)).

(* ===================================================================== *)
(** ** The per-frame path: filter under concurrent frame requests *)
(* ===================================================================== *)

Module Frame.

(** Where a thread that executes [filter] (lines 49-64) stands: before
    [semaphore->acquire()], inside [waifu2x->process(...)], before
    [semaphore->release()], or past it. *)
Inductive pc : Type := at_acquire | in_process | at_release | finished.

(** The semaphore counter of one filter instance and the threads that
    currently serve frame requests of that instance. *)
Record Gate := {
  counter : Z;
  threads : list pc
}.

(** The next statement of [filter] for a thread at [p], given the
    semaphore counter: [acquire] needs a positive counter and takes one
    permit (the thread cannot move otherwise), the return of [process]
    leads to [release], which gives the permit back. *)
Definition filter (p : pc) (c : Z) : option (pc * Z) :=
  match p with
  | at_acquire => if 0 <? c then Some (in_process, c - 1) else None
  | in_process => Some (at_release, c)
  | at_release => Some (finished, c + 1)
  | finished => None
  end.

(** The scheduler either admits a new frame request (waifu2xGetFrame with
    arAllFramesReady enters [filter] on a new thread) or lets thread [i]
    execute its next statement. *)
Inductive action : Type :=
| request
| advance (i : nat).

Definition exec (a : action) (g : Gate) : option Gate :=
  match a with
  | request =>
      Some {| counter := counter g; threads := threads g ++ [at_acquire] |}
  | advance i =>
      match threads g !! i with
      | Some p =>
          match filter p (counter g) with
          | Some (p', c') =>
              Some {| counter := c'; threads := <[i:=p']> (threads g) |}
          | None => None
          end
      | None => None
      end
  end.

Fixpoint run (sched : list action) (g : Gate) : option Gate :=
  match sched with
  | [] => Some g
  | a :: sched' =>
      match exec a g with
      | Some g' => run sched' g'
      | None => None
      end
  end.

Definition is_in_process (p : pc) : bool :=
  match p with in_process => true | _ => false end.

Definition holds_permit (p : pc) : bool :=
  match p with in_process | at_release => true | _ => false end.

Definition count (f : pc -> bool) (l : list pc) : Z :=
  Z.of_nat (length (List.filter f l)).

(** Engine invocations in flight. *)
Definition in_flight (g : Gate) : Z := count is_in_process (threads g).

(** The permits left and the permits held add up to the initial count. *)
Definition gate_inv (permits : Z) (g : Gate) : Prop :=
  0 <= counter g /\ counter g + count holds_permit (threads g) = permits.

(** A gate with [permits] permits and no thread:
    [std::counting_semaphore<>(permits)]. *)
Definition initial (permits : Z) : Gate :=
  {| counter := permits; threads := [] |}.

(** The gate of a filter instance before any frame was requested: the
    semaphore that [d->semaphore] points to, as constructed. *)
Definition gate_of (d : Waifu2xData) : Gate :=
  initial (default 0 (semaphore d)).

(** How many of the three statements of lines 61-63 a thread at [p] has
    executed: none before [acquire]; [acquire] when inside [process];
    [acquire] and [process] before [release]; all three past it. *)
Definition executed (p : pc) : nat :=
  match p with
  | at_acquire => 0%nat
  | in_process => 1%nat
  | at_release => 2%nat
  | finished => 3%nat
  end.

(** The steps that a schedule gives to thread [i]. *)
Definition is_step_of (i : nat) (a : action) : bool :=
  match a with
  | request => false
  | advance j => Nat.eqb i j
  end.

Definition steps (i : nat) (sched : list action) : nat :=
  length (List.filter (is_step_of i) sched).

End Frame.

(* ===================================================================== *)
(** ** Vocabulary of the specification *)
(* ===================================================================== *)

(** The construction gets past the format check and the creation of the GPU
    instance, so that the counter is incremented (lines 102-110). *)
Definition acquires (env : Env) (inp : VS.VSMap) (w : World) : Prop :=
  unsupported_format (VS.getVideoInfo (VS.clip inp)) = false
  /\ gpu_instance w || gpu_available env = true.

(** The world right after [++numGPUInstances] on line 110. *)
Definition acquired (env : Env) (w : World) : World :=
  incr_numGPUInstances (snd (create_gpu_instance env w)).

(** The option constraints of section 4.2 of the specification, in the
    order in which it lists them. *)
Inductive Constraint : Type :=
| noise_range
| scale_range
| tile_w_min
| tile_h_min
| model_range
| scale1_needs_cunet
| gpu_id_valid
| gpu_thread_range.

Definition stated_order : list Constraint :=
  [noise_range; scale_range; tile_w_min; tile_h_min; model_range;
   scale1_needs_cunet; gpu_id_valid; gpu_thread_range].

(** Whether resolved options satisfy a constraint, in the specification's
    words: noise in [-1,3], scale in {1,2}, tiles at least 32, model in
    {0,1,2}, scale 1 only with model 2, an existing device, a thread count
    between 1 and the compute-queue count of that device. *)
Definition satisfies (env : Env) (o : Options) (c : Constraint) : bool :=
  match c with
  | noise_range => (-1 <=? noise o) && (noise o <=? 3)
  | scale_range => (scale o =? 1) || (scale o =? 2)
  | tile_w_min => 32 <=? tile_w o
  | tile_h_min => 32 <=? tile_h o
  | model_range => (model o =? 0) || (model o =? 1) || (model o =? 2)
  | scale1_needs_cunet => implb (scale o =? 1) (model o =? 2)
  | gpu_id_valid => (0 <=? gpuId o) && (gpuId o <? get_gpu_count env)
  | gpu_thread_range =>
      (1 <=? gpuThread o)
      && (gpuThread o <=? Ncnn.compute_queue_count (get_gpu_info env (gpuId o)))
  end.

Definition first_violated (env : Env) (o : Options) : option Constraint :=
  List.find (λ c, negb (satisfies env o c)) stated_order.

(** The text that names a constraint in an error. *)
Definition message (env : Env) (o : Options) (c : Constraint) : string :=
  match c with
  | noise_range => "noise must be between -1 and 3 (inclusive)"
  | scale_range => "scale must be 1 or 2"
  | tile_w_min => "tile_w must be at least 32"
  | tile_h_min => "tile_h must be at least 32"
  | model_range => "model must be between 0 and 2 (inclusive)"
  | scale1_needs_cunet => "only cunet model supports scale=1"
  | gpu_id_valid => "invalid GPU device"
  | gpu_thread_range =>
      "gpu_thread must be between 1 and "
      +:+ Cpp.to_string (Ncnn.compute_queue_count (get_gpu_info env (gpuId o)))
      +:+ " (inclusive)"
  end.

(** The operand with which the source throws for a constraint: a string
    literal, except for the thread count, whose text is assembled in a
    temporary [std::string]. *)
Definition thrown (env : Env) (o : Options) (c : Constraint) : Cpp.CStr :=
  match c with
  | gpu_thread_range => Cpp.TempBuffer (message env o c)
  | _ => Cpp.Literal (message env o c)
  end.

(** The padding table of section 4.2. *)
Definition padding_table (model noise scale : Z) : Z :=
  if (model =? 0) || (model =? 1) then 7
  else if (noise =? -1) || (scale =? 2) then 18 else 28.

(** The directory of a model variant below the models directory. *)
Definition variant_dir (model : Z) : string :=
  if model =? 0 then "/models-upconv_7_anime_style_art_rgb"
  else if model =? 1 then "/models-upconv_7_photo"
  else "/models-cunet".

(** The decimal digit of a noise level 0..9. *)
Definition digit (n : Z) : string :=
  String (ascii_of_nat (48 + Z.to_nat n)) EmptyString.

(** The weight artifact of section 4.2 for a (noise, scale) pair: the fixed
    scale2.0x artifact without denoising, a noise-only artifact for scale 1,
    a combined noise and scale2.0x artifact otherwise. *)
Definition artifact (noise scale : Z) : string :=
  if noise =? -1 then "scale2.0x_model"
  else if scale =? 1 then "noise" +:+ digit noise +:+ "_model"
  else "noise" +:+ digit noise +:+ "_scale2.0x_model".

(** The two axes of a frame, with the tile option, the resolved tile size
    and the frame extent of each. *)
Inductive Axis : Type := horizontal | vertical.

Definition tile_key (a : Axis) : string :=
  match a with horizontal => "tile_w" | vertical => "tile_h" end.

Definition tile (a : Axis) (o : Options) : Z :=
  match a with horizontal => tile_w o | vertical => tile_h o end.

Definition extent (a : Axis) (vi : VS.VSVideoInfo) : Z :=
  match a with horizontal => VS.width vi | vertical => VS.height vi end.

(** The directory that holds the plugin's shared object. *)
Definition plugin_dir (env : Env) : string :=
  Cpp.substr0 (plugin_path env) (Cpp.rfind "/"%char (plugin_path env)).

(** The text that lists every device, one line per device:
    index, colon, space, device name. *)
Definition device_line (i : nat) (g : Ncnn.GpuInfo) : string :=
  Cpp.to_string (Z.of_nat i) +:+ ": " +:+ Ncnn.device_name g +:+ newline.

Definition device_listing (gs : list Ncnn.GpuInfo) : string :=
  foldr String.append "" (imap device_line gs).

(** The engine that a construction with options [o] builds. *)
Definition engine_for (env : Env) (o : Options) : Engine.Waifu2x :=
  let dp := model_dir_and_prepadding env o in
  let paths := model_paths (fst dp) o in
  Engine.configure
    (Engine.with_weights (Engine.new (gpuId o) (tta o) 1)
       (fst paths) (snd paths) (fp32 o))
    (noise o) (scale o) (tile_w o) (tile_h o) (snd dp).

(** The video info of the filter: the source geometry times the scale, in
    [int] arithmetic. *)
Definition scaled_vi (vi0 : VS.VSVideoInfo) (o : Options) : VS.VSVideoInfo :=
  {| VS.format := VS.format vi0;
     VS.width := mul_int (VS.width vi0) (scale o);
     VS.height := mul_int (VS.height vi0) (scale o) |}.

(** The instance data of a completed construction. *)
Definition instance_for (env : Env) (inp : VS.VSMap) : Waifu2xData :=
  let o := resolved env inp in
  {| node := VS.clip inp;
     vi := scaled_vi (VS.getVideoInfo (VS.clip inp)) o;
     waifu2x := Some (engine_for env o);
     semaphore := Some (gpuThread o) |}.

(** The conditions under which control reaches the end of the try block. *)
Definition builds_engine (env : Env) (inp : VS.VSMap) : Prop :=
  let o := resolved env inp in
  validate env o = None
  /\ list_gpu inp = false
  /\ (noise o =? -1) && (scale o =? 1) = false
  /\ file_opens env (fst (model_paths (fst (model_dir_and_prepadding env o)) o)) = true
  /\ weights_error env
       (fst (model_paths (fst (model_dir_and_prepadding env o)) o))
       (snd (model_paths (fst (model_dir_and_prepadding env o)) o)) = None.

(** Sample surroundings used by the examples below. *)
Module Sample.

Definition RGBS : VS.VSVideoFormat :=
  {| VS.colorFamily := VS.cfRGB; VS.sampleType := VS.stFloat;
     VS.bitsPerSample := 32; VS.bytesPerSample := 4 |}.

Definition YUV420P8 : VS.VSVideoFormat :=
  {| VS.colorFamily := VS.cfYUV; VS.sampleType := VS.stInteger;
     VS.bitsPerSample := 8; VS.bytesPerSample := 1 |}.

Definition clip_rgbs (w h : Z) : VS.VSNode :=
  VS.Clip 0 {| VS.format := RGBS; VS.width := w; VS.height := h |}.

Definition clip_yuv : VS.VSNode :=
  VS.Clip 1 {| VS.format := YUV420P8; VS.width := 640; VS.height := 480 |}.

Definition env : Env :=
  {| gpu_available := true;
     gpus := [ {| Ncnn.device_name := "GPU A"; Ncnn.compute_queue_count := 4 |};
               {| Ncnn.device_name := "GPU B"; Ncnn.compute_queue_count := 1 |} ];
     default_gpu_index := 0;
     plugin_path := "/usr/lib/vapoursynth/libvsw2xnvk.so";
     file_opens := λ _, true;
     text_error := None;
     weights_error := λ _ _, None |}.

(** No filter alive, no GPU instance. *)
Definition idle : World :=
  {| numGPUInstances := 0; gpu_instance := false; calls := [] |}.

(** One filter alive that uses the GPU instance. *)
Definition one_alive : World :=
  {| numGPUInstances := 1; gpu_instance := true; calls := [] |}.

Definition args (n : VS.VSNode) (m : gmap string Z) : VS.VSMap :=
  {| VS.clip := n; VS.ints := m |}.

End Sample.

(* ===================================================================== *)
(** ** The registry of GPU users over several constructions *)
(* ===================================================================== *)

(** The GPU instance exists exactly while the counter is positive. *)
Definition registry_inv (w : World) : Prop :=
  0 <= numGPUInstances w <= Cpp.INT_MAX
  /\ gpu_instance w = (0 <? numGPUInstances w).

(** The host constructs filters one after the other; the result is the
    instance data of those that were registered, oldest first. *)
Fixpoint create_all (env : Env) (inps : list VS.VSMap) (w : World)
  : list Waifu2xData * World :=
  match inps with
  | [] => ([], w)
  | inp :: rest =>
      let '(r, w1) := waifu2xCreate env inp w in
      let '(ds, w2) := create_all env rest w1 in
      (match instance r with Some d => d :: ds | None => ds end, w2)
  end.

(** The host tears registered filters down one after the other. *)
Fixpoint free_all (ds : list Waifu2xData) (w : World) : World :=
  match ds with
  | [] => w
  | d :: rest => free_all rest (waifu2xFree d w)
  end.

#[global] Instance VSVideoFormat_eq_dec : EqDecision VS.VSVideoFormat.
Proof. solve_decision. Defined.
#[global] Instance VSVideoInfo_eq_dec : EqDecision VS.VSVideoInfo.
Proof. solve_decision. Defined.
#[global] Instance VSNode_eq_dec : EqDecision VS.VSNode.
Proof. solve_decision. Defined.

Definition is_freeNode_of (n : VS.VSNode) (c : Call) : bool :=
  match c with
  | freeNode_call m => bool_decide (m = n)
  | _ => false
  end.

(** How often [freeNode] was called on a node. *)
Definition freed (n : VS.VSNode) (cs : list Call) : nat :=
  length (List.filter (is_freeNode_of n) cs).

(** The same surroundings with another file system. *)
Definition with_files (env : Env) (f : string -> bool) : Env :=
  {| gpu_available := gpu_available env;
     gpus := gpus env;
     default_gpu_index := default_gpu_index env;
     plugin_path := plugin_path env;
     file_opens := f;
     text_error := text_error env;
     weights_error := weights_error env |}.

(** The param file that a construction with the resolved options opens. *)
Definition param_path (env : Env) (inp : VS.VSMap) : string :=
  fst (model_paths (fst (model_dir_and_prepadding env (resolved env inp)))
         (resolved env inp)).

(** The bin file that goes with it. *)
Definition bin_path (env : Env) (inp : VS.VSMap) : string :=
  snd (model_paths (fst (model_dir_and_prepadding env (resolved env inp)))
         (resolved env inp)).

(** The same surroundings with other storage: another file system for the
    open test of line 242 and another verdict of the engine on the weights
    it is given at line 258. *)
Definition with_storage (env : Env) (f : string -> bool)
  (verdict : string -> string -> option string) : Env :=
  {| gpu_available := gpu_available env;
     gpus := gpus env;
     default_gpu_index := default_gpu_index env;
     plugin_path := plugin_path env;
     file_opens := f;
     text_error := text_error env;
     weights_error := verdict |}.

(** Calls on the engine: its construction and the loading of weights. *)
Definition is_engine_call (c : Call) : bool :=
  match c with
  | Waifu2x_new_call _ _ _ | Waifu2x_load_call _ _ _ => true
  | _ => false
  end.

(** The part of a param path below the models directory. *)
Definition weights_tail (model noise scale : Z) : string :=
  variant_dir model +:+ "/" +:+ artifact noise scale +:+ ".param".

(** Whether the tails of all pairs of configurations that can be registered
    (model 0..2, noise -1..3, scale 1..2, not noise -1 with scale 1) differ
    unless the configurations are the same. *)
Definition tails_distinct : bool :=
  let models := [0; 1; 2] in
  let noises := [-1; 0; 1; 2; 3] in
  let scales := [1; 2] in
  forallb (λ m, forallb (λ n, forallb (λ s,
  forallb (λ m', forallb (λ n', forallb (λ s',
    implb (negb ((n =? -1) && (s =? 1)) && negb ((n' =? -1) && (s' =? 1))
           && String.eqb (weights_tail m n s) (weights_tail m' n' s'))
          ((m =? m') && (n =? n') && (s =? s')))
  scales) noises) models) scales) noises) models.

(* ===================================================================== *)
(** ** Scheduling the threads of the gate to completion *)
(* ===================================================================== *)

Module Sched.

Import Frame.

Definition is_finished (p : pc) : bool :=
  match p with finished => true | _ => false end.

Definition is_waiting (p : pc) : bool :=
  match p with at_acquire => true | _ => false end.

Definition all_finished (g : Gate) : bool := forallb is_finished (threads g).

(** Statements of [filter] that a thread has still to execute. *)
Definition remaining (p : pc) : nat :=
  match p with
  | at_acquire => 3
  | in_process => 2
  | at_release => 1
  | finished => 0
  end.

Definition work (l : list pc) : nat := list_sum (map remaining l).

Fixpoint find_index (f : pc -> bool) (l : list pc) : option nat :=
  match l with
  | [] => None
  | p :: rest => if f p then Some O else S <$> find_index f rest
  end.

(** A thread that can be scheduled next: one that holds a permit if there
    is one, else one that waits at [acquire]. *)
Definition pick (g : Gate) : option nat :=
  match find_index holds_permit (threads g) with
  | Some i => Some i
  | None => find_index is_waiting (threads g)
  end.

(** Let picked threads advance, at most [fuel] times. *)
Fixpoint drain (fuel : nat) (g : Gate) : list action * Gate :=
  match fuel with
  | O => ([], g)
  | S k =>
      match pick g with
      | Some i =>
          match exec (advance i) g with
          | Some g' => let '(s, g'') := drain k g' in (advance i :: s, g'')
          | None => ([], g)
          end
      | None => ([], g)
      end
  end.

End Sched.

(* ===================================================================== *)
(** ** Serving a frame: filter and waifu2xGetFrame (lines 49-83) *)
(* ===================================================================== *)

Module PerFrame.

Inductive VSActivationReason : Type := arInitial | arAllFramesReady | arError.

(** A frame as the plugin looks at it: its format and, for plane 0, the
    dimensions and the stride in bytes. *)
Record VSFrame := {
  frame_format : VS.VSVideoFormat;
  frame_width : Z;
  frame_height : Z;
  frame_stride : Z
}.

(** The host side of the frame interface: the frames of upstream nodes and
    the stride that the core gives to a new frame. *)
Record Host := {
  upstream : VS.VSNode -> Z -> VSFrame;
  alloc_stride : VS.VSVideoFormat -> Z -> Z
}.

(** Calls made while a frame is served, in program order. *)
Inductive Call : Type :=
| requestFrameFilter (n : Z) (node : VS.VSNode)
| getFrameFilter (n : Z) (node : VS.VSNode)
| newVideoFrame (fmt : VS.VSVideoFormat) (width height : Z)
| acquire
| process (width height srcStride dstStride : Z)
| release
| freeFrame (f : VSFrame).

(** [filter]: dimensions from the source frame, strides counted in
    samples (integer division as in C++), then acquire, process, release. *)
Definition filter (src dst : VSFrame) (d : Waifu2xData) : list Call :=
  let width := frame_width src in
  let height := frame_height src in
  let srcStride := Z.quot (frame_stride src) (VS.bytesPerSample (VS.format (vi d))) in
  let dstStride := Z.quot (frame_stride dst) (VS.bytesPerSample (VS.format (vi d))) in
  [acquire; process width height srcStride dstStride; release].

(** [vsapi->newVideoFrame(format, width, height, propSrc, core)]. *)
Definition new_frame (host : Host) (fmt : VS.VSVideoFormat) (width height : Z) : VSFrame :=
  {| frame_format := fmt; frame_width := width; frame_height := height;
     frame_stride := alloc_stride host fmt width |}.

(** [waifu2xGetFrame]: the returned frame ([None] for nullptr) and the
    calls made. *)
Definition waifu2xGetFrame (n : Z) (activationReason : VSActivationReason)
  (d : Waifu2xData) (host : Host) : option VSFrame * list Call :=
  match activationReason with
  | arInitial => (None, [requestFrameFilter n (node d)])
  | arAllFramesReady =>
      let src := upstream host (node d) n in
      let dst := new_frame host (VS.format (vi d)) (VS.width (vi d)) (VS.height (vi d)) in
      (Some dst,
       [getFrameFilter n (node d);
        newVideoFrame (VS.format (vi d)) (VS.width (vi d)) (VS.height (vi d))]
       ++ filter src dst d
       ++ [freeFrame src])
  | arError => (None, [])
  end.

(** The frame indices that a call asks of an upstream node. *)
Definition source_index (c : Call) : option (Z * VS.VSNode) :=
  match c with
  | requestFrameFilter n node => Some (n, node)
  | getFrameFilter n node => Some (n, node)
  | _ => None
  end.

Definition is_process (c : Call) : bool :=
  match c with process _ _ _ _ => true | _ => false end.

(** The upstream frames have the geometry that the node announces. *)
Definition constant_geometry (host : Host) (node : VS.VSNode) : Prop :=
  forall n,
    frame_width (upstream host node n) = VS.width (VS.getVideoInfo node)
    /\ frame_height (upstream host node n) = VS.height (VS.getVideoInfo node)
    /\ frame_format (upstream host node n) = VS.format (VS.getVideoInfo node).

End PerFrame.

(* ===================================================================== *)
(** ** Registration: VapourSynthPluginInit2 (lines 286-304) *)
(* ===================================================================== *)

Module Registration.

(** The argument string passed to [registerFunction]. *)
Definition args : string :=
  "clip:vnode;noise:int:opt;scale:int:opt;tile_w:int:opt;tile_h:int:opt;"
  +:+ "model:int:opt;gpu_id:int:opt;gpu_thread:int:opt;tta:int:opt;"
  +:+ "fp32:int:opt;list_gpu:int:opt;".

(** The pieces of a string between occurrences of a separator. *)
Fixpoint tokens (sep : ascii) (s : string) : list string :=
  match s with
  | EmptyString => [""]
  | String c rest =>
      if Ascii.eqb c sep then "" :: tokens sep rest
      else match tokens sep rest with
           | t :: ts => String c t :: ts
           | [] => [String c ""]
           end
  end.

Record Arg := {
  arg_name : string;
  arg_type : string;
  arg_opt : bool
}.

(** One entry of the argument string: name, type and flags separated by
    colons. *)
Definition parse_arg (entry : string) : option Arg :=
  match tokens ":"%char entry with
  | name :: type :: flags =>
      Some {| arg_name := name; arg_type := type;
              arg_opt := existsb (String.eqb "opt") flags |}
  | _ => None
  end.

(** The entries of the argument string, each terminated by a semicolon. *)
Definition declared : list Arg :=
  omap parse_arg
    (List.filter (λ e, negb (String.eqb e "")) (tokens ";"%char args)).

(** The names of the optional integer arguments. *)
Definition int_options : list string :=
  arg_name <$> List.filter (λ a, String.eqb (arg_type a) "int" && arg_opt a) declared.

End Registration.

(* ===================================================================== *)
(** * Properties *)
(* ===================================================================== *)

(** ** Arithmetic of the counter *)

Lemma wrap_int_id x : in_int_range x -> wrap_int x = x.
Proof.
  unfold in_int_range, wrap_int, Cpp.INT_MIN, Cpp.INT_MAX. intros H.
  rewrite Z.mod_small; lia.
Qed.

Lemma wrap_int_range x : in_int_range (wrap_int x).
Proof.
  unfold in_int_range, wrap_int, Cpp.INT_MIN, Cpp.INT_MAX.
  pose proof (Z.mod_pos_bound (x + 2 ^ 31) (2 ^ 32) ltac:(lia)). lia.
Qed.

(** An increment followed by a decrement gives the counter back, also
    across the wrap-around. *)
Lemma wrap_int_incr_decr x : in_int_range x -> wrap_int (wrap_int (x + 1) - 1) = x.
Proof.
  intros H. unfold wrap_int at 2.
  replace ((x + 1 + 2 ^ 31) mod 2 ^ 32 - 2 ^ 31 - 1)
    with ((x + 1 + 2 ^ 31) mod 2 ^ 32 - (2 ^ 31 + 1)) by lia.
  unfold wrap_int.
  replace ((x + 1 + 2 ^ 31) mod 2 ^ 32 - (2 ^ 31 + 1) + 2 ^ 31)
    with ((x + 1 + 2 ^ 31) mod 2 ^ 32 - 1) by lia.
  rewrite Zminus_mod_idemp_l.
  replace (x + 1 + 2 ^ 31 - 1) with (x + 2 ^ 31) by lia.
  apply wrap_int_id in H. unfold wrap_int in H. exact H.
Qed.

(** ** The values read from the input map *)

Lemma mapGetIntSaturated_range inp key :
  in_int_range (fst (VS.mapGetIntSaturated inp key)).
Proof.
  unfold VS.mapGetIntSaturated, in_int_range.
  destruct (VS.mapGetInt inp key) as [v e]. simpl.
  unfold Cpp.INT_MIN, Cpp.INT_MAX. lia.
Qed.

Lemma mapGetIntSaturated_missing inp key :
  VS.ints inp !! key = None -> VS.mapGetIntSaturated inp key = (0, true).
Proof.
  intros H. unfold VS.mapGetIntSaturated, VS.mapGetInt. rewrite H. reflexivity.
Qed.

Lemma resolved_gpuThread_range env inp : in_int_range (gpuThread (resolved env inp)).
Proof.
  unfold resolved, read_options.
  pose proof (mapGetIntSaturated_range inp "gpu_thread") as H.
  repeat match goal with
         | |- context [VS.mapGetIntSaturated inp ?k] =>
             destruct (VS.mapGetIntSaturated inp k) as [? []]
         end; simpl in *; try exact H;
    unfold in_int_range, Cpp.INT_MIN, Cpp.INT_MAX; lia.
Qed.

(** ** The call trace *)

Lemma calls_since_app w0 w1 cs :
  calls w1 = cs ++ calls w0 -> calls_since w0 w1 = cs.
Proof.
  intros H. unfold calls_since. rewrite H, length_app.
  replace (length cs + length (calls w0) - length (calls w0))%nat
    with (length cs) by lia.
  apply take_app_length.
Qed.

(** ** The paths through waifu2xCreate *)

Ltac unfold_monad :=
  unfold bind, throw_when, throw_first, call, effect, ret, throw, return_with.

Lemma acquired_world env w :
  gpu_instance w || gpu_available env = true ->
  acquired env w =
    {| numGPUInstances := wrap_int (numGPUInstances w + 1);
       gpu_instance := true;
       calls := create_gpu_instance_call :: calls w |}.
Proof.
  intros H. unfold acquired, create_gpu_instance, incr_numGPUInstances, log; simpl.
  destruct (gpu_instance w) eqn:Hg; simpl in *.
  - reflexivity.
  - rewrite H. reflexivity.
Qed.

Lemma create_gpu_instance_ok env w :
  gpu_instance w || gpu_available env = true ->
  fst (create_gpu_instance env w) = 0.
Proof.
  intros H. unfold create_gpu_instance; simpl.
  destruct (gpu_instance w); simpl in *; [reflexivity | rewrite H; reflexivity].
Qed.

(** Releasing right after an acquisition: the counter is back where it was,
    and the instance is destroyed exactly when that value is zero. *)
Lemma release_after_acquire n cs :
  in_int_range n ->
  release_gpu {| numGPUInstances := wrap_int (n + 1); gpu_instance := true;
                 calls := cs |} =
    {| numGPUInstances := n;
       gpu_instance := negb (n =? 0);
       calls := (if n =? 0 then [destroy_gpu_instance_call] else []) ++ cs |}.
Proof.
  intros Hn. unfold release_gpu; simpl.
  rewrite (wrap_int_incr_decr n Hn).
  destruct (n =? 0); reflexivity.
Qed.

(** The format check fails: the handler runs on the untouched world. *)
Lemma create_unsupported_format env inp w :
  unsupported_format (VS.getVideoInfo (VS.clip inp)) = true ->
  waifu2xCreate env inp w =
    ({| out := OutError (Some (error_prefix +:+
                 "only constant RGB format 32 bit float input supported"));
        instance := None |},
     release_gpu (log (freeNode_call (VS.clip inp)) w)).
Proof.
  intros H. unfold waifu2xCreate, try_block. unfold_monad.
  rewrite H. reflexivity.
Qed.

(** The GPU instance cannot be created: the handler runs before the
    counter was incremented. *)
Lemma create_gpu_unavailable env inp w :
  unsupported_format (VS.getVideoInfo (VS.clip inp)) = false ->
  gpu_instance w || gpu_available env = false ->
  waifu2xCreate env inp w =
    ({| out := OutError (Some (error_prefix +:+ "failed to create GPU instance"));
        instance := None |},
     release_gpu (log (freeNode_call (VS.clip inp))
                      (log create_gpu_instance_call w))).
Proof.
  intros Hf Hg. apply orb_false_iff in Hg as [Hg1 Hg2].
  unfold waifu2xCreate, try_block. unfold_monad.
  rewrite Hf. unfold create_gpu_instance. simpl. rewrite Hg1, Hg2. reflexivity.
Qed.

(** The prefix of the try block up to the validation, for a construction
    that acquires the GPU. *)
Ltac enter_try_block Hacq :=
  let Hf := fresh "Hf" in
  let Hg := fresh "Hg" in
  destruct Hacq as [Hf Hg];
  unfold waifu2xCreate, try_block; unfold_monad;
  rewrite Hf;
  pose proof (create_gpu_instance_ok _ _ Hg) as Hrc;
  pose proof (acquired_world _ _ Hg) as Hw;
  unfold acquired in Hw;
  destruct (create_gpu_instance _ _) as [rc w1];
  simpl in Hrc, Hw; subst rc;
  change (negb (0 =? 0)) with false; cbv beta iota;
  rewrite Hw; clear Hw.

(** An option check fails: the handler reports the thrown text and releases
    the GPU. *)
Lemma create_invalid env inp w e :
  acquires env inp w ->
  validate env (resolved env inp) = Some e ->
  waifu2xCreate env inp w =
    ({| out := OutError ((λ s, error_prefix +:+ s) <$> Cpp.read_cstr e);
        instance := None |},
     release_gpu (log (freeNode_call (VS.clip inp)) (acquired env w))).
Proof.
  intros Hacq Hv. unfold resolved in Hv.
  rewrite (acquired_world env w (proj2 Hacq)).
  enter_try_block Hacq.
  rewrite Hv. reflexivity.
Qed.

(** The device listing. *)
Lemma create_list_gpu env inp w :
  acquires env inp w ->
  validate env (resolved env inp) = None ->
  list_gpu inp = true ->
  waifu2xCreate env inp w =
    ({| out := match text_error env with
               | Some e => OutError (Some e)
               | None => OutClip (VS.TextClip (VS.clip inp) (list_gpu_text env))
               end;
        instance := None |},
     release_gpu (log (invoke_Text_call (VS.clip inp) (list_gpu_text env))
                      (acquired env w))).
Proof.
  intros Hacq Hv Hl. unfold resolved in Hv.
  rewrite (acquired_world env w (proj2 Hacq)).
  enter_try_block Hacq.
  rewrite Hv, Hl. unfold invoke_Text.
  destruct (text_error env); reflexivity.
Qed.

(** The pass-through. *)
Lemma create_pass_through env inp w :
  acquires env inp w ->
  validate env (resolved env inp) = None ->
  list_gpu inp = false ->
  noise (resolved env inp) = -1 ->
  scale (resolved env inp) = 1 ->
  waifu2xCreate env inp w =
    ({| out := OutClip (VS.clip inp); instance := None |},
     release_gpu (acquired env w)).
Proof.
  intros Hacq Hv Hl Hn Hs. unfold resolved in Hv, Hn, Hs.
  rewrite (acquired_world env w (proj2 Hacq)).
  enter_try_block Hacq.
  rewrite Hv, Hl, Hn, Hs. reflexivity.
Qed.

(** The full construction. *)
Lemma create_filter env inp w :
  acquires env inp w ->
  builds_engine env inp ->
  let o := resolved env inp in
  let paths := model_paths (fst (model_dir_and_prepadding env o)) o in
  waifu2xCreate env inp w =
    ({| out := OutClip (VS.FilterClip "waifu2x-ncnn-Vulkan"
                          (vi (instance_for env inp)) (VS.clip inp));
        instance := Some (instance_for env inp) |},
     log (Waifu2x_load_call (fst paths) (snd paths) (fp32 o))
       (log (Waifu2x_new_call (gpuId o) (tta o) 1) (acquired env w))).
Proof.
  intros Hacq (Hv & Hl & Hp & Ho & Hwe) o paths. subst paths o.
  unfold instance_for, engine_for, resolved in *.
  rewrite (acquired_world env w (proj2 Hacq)).
  enter_try_block Hacq.
  rewrite Hv, Hl, Hp.
  destruct (model_dir_and_prepadding env _) as [modelDir prepadding] eqn:Edp.
  cbn [fst snd] in *.
  destruct (model_paths modelDir _) as [paramPath modelPath] eqn:Emp.
  cbn [fst snd] in *. rewrite Ho. unfold Engine.load. rewrite Hwe. reflexivity.
Qed.

(** The weight file cannot be opened. *)
Lemma create_model_missing env inp w :
  acquires env inp w ->
  let o := resolved env inp in
  validate env o = None ->
  list_gpu inp = false ->
  (noise o =? -1) && (scale o =? 1) = false ->
  file_opens env (fst (model_paths (fst (model_dir_and_prepadding env o)) o)) = false ->
  waifu2xCreate env inp w =
    ({| out := OutError (Some (error_prefix +:+ "failed to load model"));
        instance := None |},
     release_gpu (log (freeNode_call (VS.clip inp)) (acquired env w))).
Proof.
  intros Hacq o Hv Hl Hp Ho. subst o. unfold resolved in *.
  rewrite (acquired_world env w (proj2 Hacq)).
  enter_try_block Hacq.
  rewrite Hv, Hl, Hp.
  destruct (model_dir_and_prepadding env _) as [modelDir prepadding] eqn:Edp.
  cbn [fst snd] in *.
  destruct (model_paths modelDir _) as [paramPath modelPath] eqn:Emp.
  cbn [fst snd] in *. rewrite Ho. reflexivity.
Qed.

(** The engine rejects the weights: the engine was constructed, the load
    fails, and the handler rolls back. *)
Lemma create_weights_rejected env inp w e :
  acquires env inp w ->
  let o := resolved env inp in
  let paths := model_paths (fst (model_dir_and_prepadding env o)) o in
  validate env o = None ->
  list_gpu inp = false ->
  (noise o =? -1) && (scale o =? 1) = false ->
  file_opens env (fst paths) = true ->
  weights_error env (fst paths) (snd paths) = Some e ->
  waifu2xCreate env inp w =
    ({| out := OutError (Some (error_prefix +:+ e)); instance := None |},
     release_gpu
       (log (freeNode_call (VS.clip inp))
          (log (Waifu2x_load_call (fst paths) (snd paths) (fp32 o))
             (log (Waifu2x_new_call (gpuId o) (tta o) 1) (acquired env w))))).
Proof.
  intros Hacq o paths Hv Hl Hp Ho Hwe. subst paths o. unfold resolved in *.
  rewrite (acquired_world env w (proj2 Hacq)).
  enter_try_block Hacq.
  rewrite Hv, Hl, Hp.
  destruct (model_dir_and_prepadding env _) as [modelDir prepadding] eqn:Edp.
  cbn [fst snd] in *.
  destruct (model_paths modelDir _) as [paramPath modelPath] eqn:Emp.
  cbn [fst snd] in *. rewrite Ho. unfold Engine.load. rewrite Hwe. reflexivity.
Qed.

(** A construction that registers a filter went through the whole try
    block. *)
Lemma created_inv env inp w d :
  instance (fst (waifu2xCreate env inp w)) = Some d ->
  acquires env inp w /\ builds_engine env inp /\ d = instance_for env inp.
Proof.
  intros Hi.
  destruct (unsupported_format (VS.getVideoInfo (VS.clip inp))) eqn:Hf.
  { rewrite create_unsupported_format in Hi by exact Hf. discriminate. }
  destruct (gpu_instance w || gpu_available env) eqn:Hg.
  2:{ rewrite create_gpu_unavailable in Hi by assumption. discriminate. }
  assert (Hacq : acquires env inp w) by (split; assumption).
  destruct (validate env (resolved env inp)) eqn:Hv.
  { rewrite (create_invalid _ _ _ _ Hacq Hv) in Hi. discriminate. }
  destruct (list_gpu inp) eqn:Hl.
  { rewrite (create_list_gpu _ _ _ Hacq Hv Hl) in Hi. discriminate. }
  destruct ((noise (resolved env inp) =? -1) && (scale (resolved env inp) =? 1)) eqn:Hp.
  { apply andb_true_iff in Hp as [Hn Hs].
    apply Z.eqb_eq in Hn, Hs.
    rewrite (create_pass_through _ _ _ Hacq Hv Hl Hn Hs) in Hi. discriminate. }
  destruct (file_opens env
              (fst (model_paths (fst (model_dir_and_prepadding env (resolved env inp)))
                      (resolved env inp)))) eqn:Ho.
  2:{ rewrite (create_model_missing _ _ _ Hacq Hv Hl Hp Ho) in Hi. discriminate. }
  destruct (weights_error env
              (fst (model_paths (fst (model_dir_and_prepadding env (resolved env inp)))
                      (resolved env inp)))
              (snd (model_paths (fst (model_dir_and_prepadding env (resolved env inp)))
                      (resolved env inp)))) as [e |] eqn:Hw.
  { rewrite (create_weights_rejected _ _ _ _ Hacq Hv Hl Hp Ho Hw) in Hi.
    discriminate. }
  assert (Hb : builds_engine env inp) by (repeat split; assumption).
  rewrite (create_filter _ _ _ Hacq Hb) in Hi. simpl in Hi.
  inversion Hi. auto.
Qed.

(** ** Validation *)

(** The checks of the source, in source order, find the first violated
    constraint of the stated order. *)
Lemma validate_first_violated env o :
  in_int_range (gpuThread o) ->
  validate env o = thrown env o <$> first_violated env o.
Proof.
  unfold in_int_range, Cpp.INT_MIN, Cpp.INT_MAX. intros Hr.
  unfold validate, first_violated, stated_order. cbn [List.find].
  assert (H1 : (noise o <? -1) || (noise o >? 3)
               = negb (satisfies env o noise_range)) by (cbn; lia).
  assert (H2 : (scale o <? 1) || (scale o >? 2)
               = negb (satisfies env o scale_range)) by (cbn; lia).
  assert (H3 : (tile_w o <? 32) = negb (satisfies env o tile_w_min)) by (cbn; lia).
  assert (H4 : (tile_h o <? 32) = negb (satisfies env o tile_h_min)) by (cbn; lia).
  assert (H5 : (model o <? 0) || (model o >? 2)
               = negb (satisfies env o model_range)) by (cbn; lia).
  assert (H6 : negb (model o =? 2) && (scale o =? 1)
               = negb (satisfies env o scale1_needs_cunet)) by (cbn; lia).
  assert (H7 : (gpuId o <? 0) || (gpuId o >=? get_gpu_count env)
               = negb (satisfies env o gpu_id_valid)) by (cbn; lia).
  assert (H8 : (gpuThread o <? 1)
               || (Cpp.to_uint32 (gpuThread o)
                   >? Ncnn.compute_queue_count (get_gpu_info env (gpuId o)))
               = negb (satisfies env o gpu_thread_range)).
  { cbn. unfold Cpp.to_uint32.
    destruct (Z.ltb_spec (gpuThread o) 1); [lia |].
    rewrite Z.mod_small by lia. lia. }
  rewrite H1, H2, H3, H4, H5, H6, H7. cbv zeta. rewrite H8.
  repeat match goal with
         | |- context [negb (satisfies env o ?c)] =>
             destruct (negb (satisfies env o c)); [reflexivity |]
         end.
  reflexivity.
Qed.

Lemma validate_resolved env inp :
  validate env (resolved env inp)
  = thrown env (resolved env inp) <$> first_violated env (resolved env inp).
Proof. apply validate_first_violated, resolved_gpuThread_range. Qed.

(** A thrown literal reaches the caller with the plugin's prefix. *)
Lemma read_thrown env o c :
  c <> gpu_thread_range ->
  Cpp.read_cstr (thrown env o c) = Some (message env o c).
Proof. destruct c; intros H; try reflexivity. congruence. Qed.

(** ** Failure after the acquisition gives the GPU back *)

Lemma failure_after_acquire env inp w :
  in_int_range (numGPUInstances w) ->
  gpu_instance w || gpu_available env = true ->
  release_gpu (log (freeNode_call (VS.clip inp)) (acquired env w)) =
    {| numGPUInstances := numGPUInstances w;
       gpu_instance := negb (numGPUInstances w =? 0);
       calls := (if numGPUInstances w =? 0 then [destroy_gpu_instance_call] else [])
                ++ [freeNode_call (VS.clip inp); create_gpu_instance_call]
                ++ calls w |}.
Proof.
  intros Hn Hg. rewrite (acquired_world env w Hg). unfold log; simpl.
  rewrite (release_after_acquire _ _ Hn). reflexivity.
Qed.

Lemma no_engine_in_release (b : bool) (cs : list Call) :
  engine_constructed cs = false ->
  engine_constructed ((if b then [destroy_gpu_instance_call] else []) ++ cs) = false.
Proof. intros H. destruct b; simpl; exact H. Qed.

Lemma destroyed_in_release (b : bool) (cs : list Call) :
  gpu_destroyed cs = false ->
  gpu_destroyed ((if b then [destroy_gpu_instance_call] else []) ++ cs) = b.
Proof. intros H. destruct b; simpl; [reflexivity | exact H]. Qed.

(** ** The concurrency gate *)

Section Gate.

Import Frame.

Lemma count_nil f : count f [] = 0.
Proof. reflexivity. Qed.

Lemma count_cons f p l : count f (p :: l) = Z.b2z (f p) + count f l.
Proof. unfold count. simpl. destruct (f p); simpl length; simpl Z.b2z; lia. Qed.

Lemma count_app f l1 l2 : count f (l1 ++ l2) = count f l1 + count f l2.
Proof.
  induction l1 as [| p l1 IH]; [reflexivity |].
  change ((p :: l1) ++ l2) with (p :: (l1 ++ l2)).
  rewrite !count_cons, IH. lia.
Qed.

Lemma count_nonneg f l : 0 <= count f l.
Proof. unfold count. lia. Qed.

(** Moving the thread at index [i] from [p] to [q]. *)
Lemma count_insert f (l : list pc) i p q :
  l !! i = Some p ->
  count f (<[i:=q]> l) = count f l - Z.b2z (f p) + Z.b2z (f q).
Proof.
  revert i. induction l as [| x l IH]; intros i Hi.
  - rewrite lookup_nil in Hi. discriminate.
  - destruct i as [| i].
    + simpl in Hi. inversion Hi; subst x.
      change (<[0%nat:=q]> (p :: l)) with (q :: l).
      rewrite !count_cons. lia.
    + change (<[S i:=q]> (x :: l)) with (x :: <[i:=q]> l).
      rewrite !count_cons, (IH i Hi). lia.
Qed.

Lemma in_flight_le_holders g : in_flight g <= count holds_permit (threads g).
Proof.
  unfold in_flight. induction (threads g) as [| p l IH]; [reflexivity |].
  rewrite !count_cons. destruct p; simpl Z.b2z; lia.
Qed.

Lemma gate_inv_initial permits : 0 <= permits -> gate_inv permits (initial permits).
Proof. intros H. split; simpl; [exact H | rewrite count_nil; lia]. Qed.

Lemma gate_inv_exec permits a g g' :
  gate_inv permits g -> exec a g = Some g' -> gate_inv permits g'.
Proof.
  intros [Hc Hs] He. destruct a as [| i]; simpl in He.
  - inversion He; subst g'. split; simpl; [exact Hc |].
    rewrite count_app, count_cons, count_nil. simpl Z.b2z. lia.
  - destruct (threads g !! i) as [p |] eqn:Hp; [| discriminate].
    destruct p; simpl in He.
    + destruct (Z.ltb_spec 0 (counter g)); [| discriminate].
      inversion He; subst g'. split; simpl; [lia |].
      rewrite (count_insert _ _ _ _ _ Hp). simpl Z.b2z. lia.
    + inversion He; subst g'. split; simpl; [lia |].
      rewrite (count_insert _ _ _ _ _ Hp). simpl Z.b2z. lia.
    + inversion He; subst g'. split; simpl; [lia |].
      rewrite (count_insert _ _ _ _ _ Hp). simpl Z.b2z.
      pose proof (count_nonneg holds_permit (threads g)). lia.
    + discriminate.
Qed.

Lemma gate_inv_run permits sched : forall g g',
  gate_inv permits g -> run sched g = Some g' -> gate_inv permits g'.
Proof.
  induction sched as [| a sched IH]; intros g g' Hinv Hrun; simpl in Hrun.
  - inversion Hrun; subst; exact Hinv.
  - destruct (exec a g) as [g1 |] eqn:He; [| discriminate].
    eapply IH; [| exact Hrun]. eapply gate_inv_exec; eassumption.
Qed.

(** Every engine invocation happens between an acquire and a release of
    the same thread: a thread reaches [in_process] only from [at_acquire]
    by taking a permit, and leaves it only towards [at_release]. *)
Lemma filter_enters_process_by_acquire p c p' c' :
  filter p c = Some (p', c') -> p' = in_process ->
  p = at_acquire /\ 0 < c /\ c' = c - 1.
Proof.
  intros H ->. destruct p; simpl in H; try discriminate.
  destruct (Z.ltb_spec 0 c); [| discriminate]. inversion H. auto.
Qed.

Lemma filter_leaves_process_to_release c :
  filter in_process c = Some (at_release, c)
  /\ filter at_release c = Some (finished, c + 1).
Proof. split; reflexivity. Qed.

(** Each step of [filter] executes one statement. *)
Lemma filter_executed p c p' c' :
  filter p c = Some (p', c') -> executed p' = S (executed p).
Proof.
  destruct p; simpl; intros H; try discriminate.
  - destruct (0 <? c); inversion H; reflexivity.
  - inversion H; reflexivity.
  - inversion H; reflexivity.
Qed.

(** The statements that thread [i] has executed, 0 for a thread that was
    not started yet. *)
Lemma executed_exec a g g' i :
  exec a g = Some g' ->
  default 0%nat (executed <$> threads g' !! i)
  = (default 0%nat (executed <$> threads g !! i)
     + (if is_step_of i a then 1 else 0))%nat.
Proof.
  intros He. destruct a as [| j]; simpl in He.
  - inversion He; subst g'. cbn [threads is_step_of].
    destruct (threads g !! i) as [p |] eqn:Hp.
    + rewrite lookup_app_l by (eapply lookup_lt_Some; exact Hp).
      rewrite Hp. simpl. lia.
    + apply lookup_ge_None in Hp.
      rewrite lookup_app_r by exact Hp.
      rewrite list_lookup_singleton.
      destruct (i - length (threads g))%nat; reflexivity.
  - destruct (threads g !! j) as [p |] eqn:Hp; [| discriminate].
    destruct (filter p (counter g)) as [[p' c'] |] eqn:Hf; [| discriminate].
    inversion He; subst g'. cbn [threads is_step_of].
    destruct (Nat.eqb_spec i j) as [-> | Hne].
    + rewrite list_lookup_insert_eq by (eapply lookup_lt_Some; exact Hp).
      rewrite Hp. simpl. rewrite (filter_executed _ _ _ _ Hf). lia.
    + rewrite list_lookup_insert_ne by congruence. lia.
Qed.

Lemma executed_run sched : forall g g' i,
  run sched g = Some g' ->
  default 0%nat (executed <$> threads g' !! i)
  = (default 0%nat (executed <$> threads g !! i) + steps i sched)%nat.
Proof.
  induction sched as [| a sched IH]; intros g g' i Hrun; simpl in Hrun.
  - inversion Hrun; subst. unfold steps. simpl. lia.
  - destruct (exec a g) as [g1 |] eqn:He; [| discriminate].
    rewrite (IH _ _ i Hrun), (executed_exec _ _ _ i He).
    unfold steps. simpl. destruct (is_step_of i a); simpl; lia.
Qed.

(** A thread comes to be inside [process] by its own [acquire] only, which
    finds a permit and takes it. *)
Lemma process_entered_by_acquire a g g' i :
  exec a g = Some g' ->
  threads g' !! i = Some in_process ->
  threads g !! i = Some in_process
  \/ (a = advance i /\ threads g !! i = Some at_acquire
      /\ 0 < counter g /\ counter g' = counter g - 1).
Proof.
  intros He Hi. destruct a as [| j]; simpl in He.
  - inversion He; subst g'. cbn [threads] in Hi.
    apply lookup_app_Some in Hi as [Hi | [_ Hi]]; [left; exact Hi |].
    rewrite list_lookup_singleton in Hi.
    destruct (i - length (threads g))%nat; discriminate.
  - destruct (threads g !! j) as [p |] eqn:Hp; [| discriminate].
    destruct (filter p (counter g)) as [[p' c'] |] eqn:Hf; [| discriminate].
    inversion He; subst g'. cbn [threads counter] in *.
    destruct (Nat.eq_dec j i) as [-> | Hne].
    + rewrite list_lookup_insert_eq in Hi by (eapply lookup_lt_Some; exact Hp).
      inversion Hi; subst p'.
      destruct (filter_enters_process_by_acquire _ _ _ _ Hf eq_refl)
        as (-> & Hc & ->).
      right. auto.
    + rewrite list_lookup_insert_ne in Hi by exact Hne. left. exact Hi.
Qed.

(** A thread inside [process] is never held up: the return of [process]
    leaves the semaphore alone, and the [release] after it gives the permit
    back. *)
Lemma process_followed_by_release g i :
  threads g !! i = Some in_process ->
  exists g1 g2,
    exec (advance i) g = Some g1
    /\ threads g1 !! i = Some at_release
    /\ counter g1 = counter g
    /\ exec (advance i) g1 = Some g2
    /\ threads g2 !! i = Some finished
    /\ counter g2 = counter g + 1.
Proof.
  intros Hi. pose proof (lookup_lt_Some _ _ _ Hi) as Hlt.
  exists {| counter := counter g; threads := <[i:=at_release]> (threads g) |}.
  exists {| counter := counter g + 1;
            threads := <[i:=finished]> (<[i:=at_release]> (threads g)) |}.
  simpl. rewrite Hi. simpl.
  rewrite !list_lookup_insert_eq by (rewrite ?length_insert; exact Hlt).
  simpl. repeat split; reflexivity.
Qed.

End Gate.

(** ** Text helpers *)

Lemma string_app_assoc (a b c : string) : (a +:+ b) +:+ c = a +:+ (b +:+ c).
Proof.
  induction a as [| x a IH]; [reflexivity |].
  change (String x ((a +:+ b) +:+ c) = String x (a +:+ (b +:+ c))).
  rewrite IH. reflexivity.
Qed.

Lemma string_app_nil_r (a : string) : a +:+ "" = a.
Proof.
  induction a as [| x a IH]; [reflexivity |].
  change (String x (a +:+ "") = String x a). rewrite IH. reflexivity.
Qed.

(** The loop of the source builds the listing line by line. *)
Lemma list_gpu_loop_listing rest : forall (n : nat) (text : string),
  list_gpu_loop (Z.of_nat n) rest text
  = text +:+ foldr String.append "" (imap (λ k, device_line (n + k)) rest).
Proof.
  induction rest as [| g rest IH]; intros n text.
  - simpl. symmetry. apply string_app_nil_r.
  - rewrite imap_cons. cbn [list_gpu_loop foldr].
    replace (Z.of_nat n + 1) with (Z.of_nat (S n)) by lia.
    rewrite IH, string_app_assoc.
    replace (n + 0)%nat with n by lia.
    unfold device_line at 2. rewrite !string_app_assoc.
    do 6 f_equal. apply imap_ext. intros k x _. simpl. f_equal. lia.
Qed.

Lemma list_gpu_text_listing env : list_gpu_text env = device_listing (gpus env).
Proof.
  unfold list_gpu_text, device_listing.
  change 0 with (Z.of_nat 0).
  rewrite (list_gpu_loop_listing (gpus env) 0 ""). reflexivity.
Qed.

(** [std::to_string] of a noise level 0..3 is its digit. *)
Lemma to_string_noise_level n : 0 <= n <= 3 -> Cpp.to_string n = digit n.
Proof.
  intros H.
  assert (n = 0 \/ n = 1 \/ n = 2 \/ n = 3) as [-> | [-> | [-> | ->]]] by lia;
    reflexivity.
Qed.

(** ** The reference counter across construction and teardown *)

(** A construction that registers a filter leaves the counter one higher
    and the GPU instance alive. *)
Lemma counter_after_registration env inp w d :
  instance (fst (waifu2xCreate env inp w)) = Some d ->
  numGPUInstances (snd (waifu2xCreate env inp w)) = wrap_int (numGPUInstances w + 1)
  /\ gpu_instance (snd (waifu2xCreate env inp w)) = true.
Proof.
  intros Hi. destruct (created_inv _ _ _ _ Hi) as (Hacq & Hb & _).
  rewrite (create_filter _ _ _ Hacq Hb).
  rewrite (acquired_world _ _ (proj2 Hacq)). simpl. auto.
Qed.

(** Teardown takes one off the counter and destroys the GPU instance
    exactly when the counter arrives at zero. *)
Lemma counter_after_free d w :
  let w' := waifu2xFree d w in
  numGPUInstances w' = wrap_int (numGPUInstances w - 1)
  /\ gpu_destroyed (calls_since w w') = (numGPUInstances w' =? 0)
  /\ gpu_instance w' = (if numGPUInstances w' =? 0 then false else gpu_instance w).
Proof.
  unfold waifu2xFree, release_gpu, log; simpl.
  destruct (wrap_int (numGPUInstances w - 1) =? 0) eqn:Hz; simpl; rewrite ?Hz.
  - repeat split.
    rewrite (calls_since_app w _ [destroy_gpu_instance_call; freeNode_call (node d)]);
      reflexivity.
  - repeat split.
    rewrite (calls_since_app w _ [freeNode_call (node d)]); reflexivity.
Qed.

(** A construction that got past the acquisition and registers no filter
    leaves the counter as it found it. *)
Lemma counter_after_late_exit env inp w :
  in_int_range (numGPUInstances w) ->
  acquires env inp w ->
  instance (fst (waifu2xCreate env inp w)) = None ->
  numGPUInstances (snd (waifu2xCreate env inp w)) = numGPUInstances w.
Proof.
  intros Hn Hacq Hi. pose proof (proj2 Hacq) as Hg.
  destruct (validate env (resolved env inp)) eqn:Hv.
  { rewrite (create_invalid _ _ _ _ Hacq Hv). simpl.
    rewrite (failure_after_acquire _ _ _ Hn Hg). reflexivity. }
  destruct (list_gpu inp) eqn:Hl.
  { rewrite (create_list_gpu _ _ _ Hacq Hv Hl). simpl.
    rewrite (acquired_world _ _ Hg). unfold log; simpl.
    rewrite (release_after_acquire _ _ Hn). reflexivity. }
  destruct ((noise (resolved env inp) =? -1) && (scale (resolved env inp) =? 1)) eqn:Hp.
  { apply andb_true_iff in Hp as [Hno Hs]. apply Z.eqb_eq in Hno, Hs.
    rewrite (create_pass_through _ _ _ Hacq Hv Hl Hno Hs). simpl.
    rewrite (acquired_world _ _ Hg).
    rewrite (release_after_acquire _ _ Hn). reflexivity. }
  destruct (file_opens env
              (fst (model_paths (fst (model_dir_and_prepadding env (resolved env inp)))
                      (resolved env inp)))) eqn:Ho.
  - destruct (weights_error env
                (fst (model_paths (fst (model_dir_and_prepadding env (resolved env inp)))
                        (resolved env inp)))
                (snd (model_paths (fst (model_dir_and_prepadding env (resolved env inp)))
                        (resolved env inp)))) as [e |] eqn:Hwe.
    + rewrite (create_weights_rejected _ _ _ _ Hacq Hv Hl Hp Ho Hwe).
      rewrite (acquired_world _ _ Hg). unfold log.
      cbn [snd numGPUInstances gpu_instance calls].
      rewrite (release_after_acquire _ _ Hn). reflexivity.
    + assert (Hb : builds_engine env inp) by (repeat split; assumption).
      rewrite (create_filter _ _ _ Hacq Hb) in Hi. discriminate.
  - rewrite (create_model_missing _ _ _ Hacq Hv Hl Hp Ho). simpl.
    rewrite (failure_after_acquire _ _ _ Hn Hg). reflexivity.
Qed.

(** A construction that fails before the acquisition still runs the
    handler, which takes one off the counter. *)
Lemma counter_after_early_failure env inp w :
  ~ acquires env inp w ->
  instance (fst (waifu2xCreate env inp w)) = None
  /\ numGPUInstances (snd (waifu2xCreate env inp w)) = wrap_int (numGPUInstances w - 1).
Proof.
  intros Hna.
  destruct (unsupported_format (VS.getVideoInfo (VS.clip inp))) eqn:Hf.
  - rewrite (create_unsupported_format _ _ _ Hf). simpl. split; [reflexivity |].
    unfold release_gpu, log; simpl.
    destruct (_ =? 0); reflexivity.
  - destruct (gpu_instance w || gpu_available env) eqn:Hg.
    + exfalso. apply Hna. split; assumption.
    + rewrite (create_gpu_unavailable _ _ _ Hf Hg). simpl. split; [reflexivity |].
      unfold release_gpu, log; simpl.
      destruct (_ =? 0); reflexivity.
Qed.

(** After an early failure from the idle state the counter is -1; a later
    filter then lives at count 0, and its teardown brings the counter to -1
    again, so the GPU instance is never destroyed. *)
Example early_failure_then_leak :
  let w1 := snd (waifu2xCreate Sample.env (Sample.args Sample.clip_yuv ∅) Sample.idle) in
  let inp := Sample.args (Sample.clip_rgbs 640 480) ∅ in
  let w2 := snd (waifu2xCreate Sample.env inp w1) in
  let w3 := waifu2xFree (instance_for Sample.env inp) w2 in
  numGPUInstances w1 = -1
  /\ instance (fst (waifu2xCreate Sample.env inp w1)) = Some (instance_for Sample.env inp)
  /\ numGPUInstances w2 = 0
  /\ numGPUInstances w3 = -1
  /\ gpu_instance w3 = true.
Proof. repeat split. Qed.

(* ===================================================================== *)
(** * The claims *)
(* ===================================================================== *)

(** C1 (the code departs from the claim). The claim: a construction that
    fails before the GPU context was acquired does not decrement the
    reference count. The code: with one filter alive (count 1, GPU instance
    in use), a construction on a YUV clip fails the format check on lines
    102-106, before line 110 increments the count; the handler on lines
    268-276 decrements all the same, the count reaches 0 and
    [ncnn::destroy_gpu_instance] is called under the live filter. *)
Theorem early_failure_decrements_counter :
  waifu2xCreate Sample.env (Sample.args Sample.clip_yuv ∅) Sample.one_alive =
    ({| out := OutError (Some
          "waifu2x-ncnn-Vulkan: only constant RGB format 32 bit float input supported");
        instance := None |},
     {| numGPUInstances := 0;
        gpu_instance := false;
        calls := [destroy_gpu_instance_call; freeNode_call Sample.clip_yuv] |}).
Proof. reflexivity. Qed.

(** C2. For a filter instance registered by [waifu2xCreate], the semaphore
    is constructed with the resolved gpu_thread, and under any schedule of
    frame requests and thread steps, in which each thread runs acquire,
    process, release in this order, the permits left and the permits held
    add up to gpu_thread; so at most gpu_thread threads are inside
    [process] at any time. Every invocation of [process] is preceded by the
    acquire of its thread and followed by its release: a thread stands
    where the number of its steps in the schedule puts it, inside [process]
    after exactly one step; the step that brings a thread inside [process]
    is its own acquire, which finds a permit and takes it; and a thread
    inside [process] can always go on, the return of [process] leaving the
    semaphore alone and the release after it giving the permit back. *)
Theorem gate_bounds_engine_invocations env inp w d sched g :
  instance (fst (waifu2xCreate env inp w)) = Some d ->
  Frame.run sched (Frame.gate_of d) = Some g ->
  semaphore d = Some (gpuThread (resolved env inp))
  /\ Frame.gate_inv (gpuThread (resolved env inp)) g
  /\ Frame.in_flight g <= gpuThread (resolved env inp)
  /\ (forall i p, Frame.threads g !! i = Some p ->
      Frame.executed p = Frame.steps i sched)
  /\ (forall a g' i,
      Frame.exec a g = Some g' ->
      Frame.threads g' !! i = Some Frame.in_process ->
      Frame.threads g !! i = Some Frame.in_process
      \/ (a = Frame.advance i
          /\ Frame.threads g !! i = Some Frame.at_acquire
          /\ 0 < Frame.counter g
          /\ Frame.counter g' = Frame.counter g - 1))
  /\ (forall i, Frame.threads g !! i = Some Frame.in_process ->
      exists g1 g2,
        Frame.exec (Frame.advance i) g = Some g1
        /\ Frame.threads g1 !! i = Some Frame.at_release
        /\ Frame.counter g1 = Frame.counter g
        /\ Frame.exec (Frame.advance i) g1 = Some g2
        /\ Frame.threads g2 !! i = Some Frame.finished
        /\ Frame.counter g2 = Frame.counter g + 1).
Proof.
  intros Hi Hrun. destruct (created_inv _ _ _ _ Hi) as (Hacq & Hb & ->).
  destruct Hb as (Hv & _).
  assert (Hpos : 1 <= gpuThread (resolved env inp)).
  { rewrite validate_resolved in Hv.
    destruct (satisfies env (resolved env inp) gpu_thread_range) eqn:Hs.
    - cbn in Hs. lia.
    - unfold first_violated, stated_order in Hv. cbn [List.find] in Hv.
      rewrite Hs in Hv.
      repeat match type of Hv with
             | context [negb (satisfies ?e ?o ?c)] =>
                 destruct (negb (satisfies e o c)); [discriminate |]
             end.
      discriminate. }
  assert (Hinv : Frame.gate_inv (gpuThread (resolved env inp)) g).
  { eapply gate_inv_run; [| exact Hrun]. apply gate_inv_initial. lia. }
  split; [reflexivity |]. split; [exact Hinv |].
  split.
  { destruct Hinv as [Hc Hs].
    pose proof (in_flight_le_holders g). lia. }
  split.
  { intros i p Hp. pose proof (executed_run _ _ _ i Hrun) as He.
    rewrite Hp in He. exact He. }
  split.
  { intros a g' i. apply process_entered_by_acquire. }
  intros i. apply process_followed_by_release.
Qed.

(** Two permits, three frame requests: two threads are inside [process],
    the third waits at [acquire]. *)
Lemma gate_bounds_engine_invocations_witness :
  let inp := Sample.args (Sample.clip_rgbs 640 480) ∅ in
  let sched := [Frame.request; Frame.request; Frame.request;
                Frame.advance 0; Frame.advance 1] in
  let g := {| Frame.counter := 0;
              Frame.threads := [Frame.in_process; Frame.in_process;
                                Frame.at_acquire] |} in
  semaphore (instance_for Sample.env inp) = Some (gpuThread (resolved Sample.env inp))
  /\ Frame.gate_inv (gpuThread (resolved Sample.env inp)) g
  /\ Frame.in_flight g <= gpuThread (resolved Sample.env inp)
  /\ (forall i p, Frame.threads g !! i = Some p ->
      Frame.executed p = Frame.steps i sched)
  /\ (forall a g' i,
      Frame.exec a g = Some g' ->
      Frame.threads g' !! i = Some Frame.in_process ->
      Frame.threads g !! i = Some Frame.in_process
      \/ (a = Frame.advance i
          /\ Frame.threads g !! i = Some Frame.at_acquire
          /\ 0 < Frame.counter g
          /\ Frame.counter g' = Frame.counter g - 1))
  /\ (forall i, Frame.threads g !! i = Some Frame.in_process ->
      exists g1 g2,
        Frame.exec (Frame.advance i) g = Some g1
        /\ Frame.threads g1 !! i = Some Frame.at_release
        /\ Frame.counter g1 = Frame.counter g
        /\ Frame.exec (Frame.advance i) g1 = Some g2
        /\ Frame.threads g2 !! i = Some Frame.finished
        /\ Frame.counter g2 = Frame.counter g + 1).
Proof.
  apply (gate_bounds_engine_invocations Sample.env
           (Sample.args (Sample.clip_rgbs 640 480) ∅) Sample.idle
           (instance_for Sample.env (Sample.args (Sample.clip_rgbs 640 480) ∅))
           [Frame.request; Frame.request; Frame.request;
            Frame.advance 0; Frame.advance 1]).
  - reflexivity.
  - reflexivity.
Defined.

(** C3, as stated, fails: with noise -1, scale 1, no list_gpu and model 0
    the construction does not pass the source through; the check on lines
    156-157 rejects scale 1 for a model other than cunet. *)
Lemma pass_through_counterexample :
  let inp := Sample.args (Sample.clip_rgbs 640 480)
               {[ "noise" := -1; "scale" := 1; "model" := 0 ]} in
  noise (resolved Sample.env inp) = -1
  /\ scale (resolved Sample.env inp) = 1
  /\ list_gpu inp = false
  /\ out (fst (waifu2xCreate Sample.env inp Sample.idle))
     = OutError (Some "waifu2x-ncnn-Vulkan: only cunet model supports scale=1")
  /\ out (fst (waifu2xCreate Sample.env inp Sample.idle)) <> OutClip (VS.clip inp).
Proof. repeat split. discriminate. Qed.

(** C3 (amended). If the clip format is supported, the GPU instance can be
    created, every option check passes, list_gpu is not set, noise is -1 and
    scale is 1, then construction short-circuits: the output is the source
    node itself (same frames, same geometry), no filter is registered, no
    engine is constructed, and the counter is back at its value before the
    call, the GPU instance being destroyed exactly when that value is 0. *)
Theorem pass_through_short_circuit env inp w :
  in_int_range (numGPUInstances w) ->
  acquires env inp w ->
  validate env (resolved env inp) = None ->
  list_gpu inp = false ->
  noise (resolved env inp) = -1 ->
  scale (resolved env inp) = 1 ->
  out (fst (waifu2xCreate env inp w)) = OutClip (VS.clip inp)
  /\ instance (fst (waifu2xCreate env inp w)) = None
  /\ engine_constructed (calls_since w (snd (waifu2xCreate env inp w))) = false
  /\ numGPUInstances (snd (waifu2xCreate env inp w)) = numGPUInstances w
  /\ gpu_destroyed (calls_since w (snd (waifu2xCreate env inp w)))
     = (numGPUInstances w =? 0)
  /\ gpu_instance (snd (waifu2xCreate env inp w)) = negb (numGPUInstances w =? 0).
Proof.
  intros Hn Hacq Hv Hl Hno Hs.
  rewrite (create_pass_through _ _ _ Hacq Hv Hl Hno Hs).
  rewrite (acquired_world _ _ (proj2 Hacq)), (release_after_acquire _ _ Hn).
  cbn [fst snd out instance numGPUInstances gpu_instance].
  rewrite (calls_since_app w _
             ((if numGPUInstances w =? 0 then [destroy_gpu_instance_call] else [])
              ++ [create_gpu_instance_call]))
    by (cbn [calls]; rewrite <- app_assoc; reflexivity).
  repeat split.
  - apply no_engine_in_release. reflexivity.
  - apply destroyed_in_release. reflexivity.
Qed.

Lemma pass_through_short_circuit_witness :
  let inp := Sample.args (Sample.clip_rgbs 640 480) {[ "noise" := -1; "scale" := 1 ]} in
  out (fst (waifu2xCreate Sample.env inp Sample.idle)) = OutClip (VS.clip inp)
  /\ instance (fst (waifu2xCreate Sample.env inp Sample.idle)) = None
  /\ engine_constructed
       (calls_since Sample.idle (snd (waifu2xCreate Sample.env inp Sample.idle))) = false
  /\ numGPUInstances (snd (waifu2xCreate Sample.env inp Sample.idle))
     = numGPUInstances Sample.idle
  /\ gpu_destroyed
       (calls_since Sample.idle (snd (waifu2xCreate Sample.env inp Sample.idle)))
     = (numGPUInstances Sample.idle =? 0)
  /\ gpu_instance (snd (waifu2xCreate Sample.env inp Sample.idle))
     = negb (numGPUInstances Sample.idle =? 0).
Proof.
  apply (pass_through_short_circuit Sample.env
           (Sample.args (Sample.clip_rgbs 640 480) {[ "noise" := -1; "scale" := 1 ]})
           Sample.idle).
  - unfold in_int_range, Cpp.INT_MIN, Cpp.INT_MAX. simpl. lia.
  - split; reflexivity.
  - reflexivity.
  - reflexivity.
  - reflexivity.
  - reflexivity.
Defined.

(** C4, as stated, fails: without a noise argument the resolved noise level
    is 0, not -1; the engine is configured with noise 0 and loads the
    noise0 weights. *)
Lemma noise_default_counterexample :
  let inp := Sample.args (Sample.clip_rgbs 640 480) ∅ in
  VS.ints inp !! "noise" = None
  /\ noise (resolved Sample.env inp) = 0
  /\ noise (resolved Sample.env inp) <> -1
  /\ (Engine.noise <$> waifu2x (instance_for Sample.env inp)) = Some 0
  /\ instance (fst (waifu2xCreate Sample.env inp Sample.idle))
     = Some (instance_for Sample.env inp).
Proof. repeat split. discriminate. Qed.

(** C4 (amended). When the noise option is not supplied, the resolved noise
    level is 0: line 112 reads the argument and, unlike the reads that
    follow it, sets no default on error, so the 0 that the failed read
    returns stays. A registered filter has its engine configured with
    that level. *)
Theorem noise_default_is_zero env inp :
  VS.ints inp !! "noise" = None ->
  noise (resolved env inp) = 0
  /\ forall w d, instance (fst (waifu2xCreate env inp w)) = Some d ->
       Engine.noise <$> waifu2x d = Some 0.
Proof.
  intros H.
  assert (H0 : noise (resolved env inp) = 0).
  { unfold resolved, read_options.
    rewrite (mapGetIntSaturated_missing inp "noise" H).
    repeat match goal with
           | |- context [VS.mapGetIntSaturated inp ?k] =>
               destruct (VS.mapGetIntSaturated inp k) as [? ?]
           end.
    reflexivity. }
  split; [exact H0 |].
  intros w d Hi. destruct (created_inv _ _ _ _ Hi) as (_ & _ & ->).
  simpl. rewrite H0. reflexivity.
Qed.

Lemma noise_default_is_zero_witness :
  noise (resolved Sample.env (Sample.args (Sample.clip_rgbs 640 480) {[ "scale" := 2 ]})) = 0
  /\ forall w d,
       instance (fst (waifu2xCreate Sample.env
                        (Sample.args (Sample.clip_rgbs 640 480) {[ "scale" := 2 ]}) w))
       = Some d ->
       Engine.noise <$> waifu2x d = Some 0.
Proof.
  apply (noise_default_is_zero Sample.env
           (Sample.args (Sample.clip_rgbs 640 480) {[ "scale" := 2 ]})).
  reflexivity.
Defined.

(** C5, as stated, fails: the format check of lines 102-106 comes before
    every option check, so for a YUV clip with noise 4 the error names the
    format, not the noise constraint, although noise is the first violated
    constraint of the stated order. *)
Lemma validation_order_counterexample :
  let inp := Sample.args Sample.clip_yuv {[ "noise" := 4 ]} in
  first_violated Sample.env (resolved Sample.env inp) = Some noise_range
  /\ out (fst (waifu2xCreate Sample.env inp Sample.idle))
     = OutError (Some
         "waifu2x-ncnn-Vulkan: only constant RGB format 32 bit float input supported")
  /\ out (fst (waifu2xCreate Sample.env inp Sample.idle))
     <> OutError (Some (error_prefix
                        +:+ message Sample.env (resolved Sample.env inp) noise_range)).
Proof. repeat split. discriminate. Qed.

(** C5 (amended). For a clip of supported format and a GPU instance that
    can be created, the option checks run in the stated order: noise in
    [-1,3], scale in {1,2}, tile_w at least 32, tile_h at least 32, model in
    {0,1,2}, scale 1 only with model 2, device id valid, gpu_thread in
    [1, compute-queue count]. If [c] is the first violated constraint of
    that order, construction fails with the operand thrown for [c]; no
    filter is registered, no engine is constructed and the counter is
    restored. For every constraint but the thread count the error delivered
    names [c]. For the thread count the text is thrown as a pointer into a
    temporary string, and nothing is stated about the text delivered. *)
Theorem validation_reports_first_violated env inp w c :
  in_int_range (numGPUInstances w) ->
  acquires env inp w ->
  first_violated env (resolved env inp) = Some c ->
  validate env (resolved env inp) = Some (thrown env (resolved env inp) c)
  /\ (exists m, out (fst (waifu2xCreate env inp w)) = OutError m)
  /\ (c <> gpu_thread_range ->
      out (fst (waifu2xCreate env inp w))
      = OutError (Some (error_prefix +:+ message env (resolved env inp) c)))
  /\ instance (fst (waifu2xCreate env inp w)) = None
  /\ engine_constructed (calls_since w (snd (waifu2xCreate env inp w))) = false
  /\ numGPUInstances (snd (waifu2xCreate env inp w)) = numGPUInstances w.
Proof.
  intros Hn Hacq Hc.
  assert (Hv : validate env (resolved env inp) = Some (thrown env (resolved env inp) c)).
  { rewrite validate_resolved, Hc. reflexivity. }
  split; [exact Hv |].
  rewrite (create_invalid _ _ _ _ Hacq Hv).
  rewrite (failure_after_acquire _ _ _ Hn (proj2 Hacq)).
  cbn [fst snd out instance numGPUInstances].
  split; [eexists; reflexivity |].
  split; [intros Hne; rewrite (read_thrown _ _ _ Hne); reflexivity |].
  split; [reflexivity |].
  split; [| reflexivity].
  rewrite (calls_since_app w _
             ((if numGPUInstances w =? 0 then [destroy_gpu_instance_call] else [])
              ++ [freeNode_call (VS.clip inp); create_gpu_instance_call]))
    by (cbn [calls]; rewrite <- app_assoc; reflexivity).
  apply no_engine_in_release. reflexivity.
Qed.

Lemma validation_reports_first_violated_witness :
  let inp := Sample.args (Sample.clip_rgbs 640 480)
               {[ "noise" := 4; "scale" := 3; "tile_w" := 16 ]} in
  validate Sample.env (resolved Sample.env inp)
  = Some (thrown Sample.env (resolved Sample.env inp) noise_range)
  /\ (exists m, out (fst (waifu2xCreate Sample.env inp Sample.idle)) = OutError m)
  /\ (noise_range <> gpu_thread_range ->
      out (fst (waifu2xCreate Sample.env inp Sample.idle))
      = OutError (Some (error_prefix
                        +:+ message Sample.env (resolved Sample.env inp) noise_range)))
  /\ instance (fst (waifu2xCreate Sample.env inp Sample.idle)) = None
  /\ engine_constructed
       (calls_since Sample.idle (snd (waifu2xCreate Sample.env inp Sample.idle))) = false
  /\ numGPUInstances (snd (waifu2xCreate Sample.env inp Sample.idle))
     = numGPUInstances Sample.idle.
Proof.
  apply (validation_reports_first_violated Sample.env
           (Sample.args (Sample.clip_rgbs 640 480)
              {[ "noise" := 4; "scale" := 3; "tile_w" := 16 ]})
           Sample.idle noise_range).
  - unfold in_int_range, Cpp.INT_MIN, Cpp.INT_MAX. simpl. lia.
  - split; reflexivity.
  - reflexivity.
Defined.

(** C6. Whenever the option checks pass, the padding derived on lines
    212-227 is the one of the table: 7 for models 0 and 1, and for model 2
    18 when noise is -1 or scale is 2 and 28 otherwise. The engine of a
    registered filter is configured with this padding. *)
Theorem prepadding_follows_table env inp :
  validate env (resolved env inp) = None ->
  snd (model_dir_and_prepadding env (resolved env inp))
  = padding_table (model (resolved env inp)) (noise (resolved env inp))
      (scale (resolved env inp))
  /\ forall w d, instance (fst (waifu2xCreate env inp w)) = Some d ->
       Engine.prepadding <$> waifu2x d
       = Some (padding_table (model (resolved env inp)) (noise (resolved env inp))
                 (scale (resolved env inp))).
Proof.
  intros Hv.
  assert (Hm : model (resolved env inp) = 0 \/ model (resolved env inp) = 1
               \/ model (resolved env inp) = 2).
  { rewrite validate_resolved in Hv.
    destruct (satisfies env (resolved env inp) model_range) eqn:Hs.
    - cbn in Hs. lia.
    - unfold first_violated, stated_order in Hv. cbn [List.find] in Hv.
      rewrite Hs in Hv.
      repeat match type of Hv with
             | context [negb (satisfies ?e ?o ?c)] =>
                 destruct (negb (satisfies e o c)); [discriminate |]
             end.
      discriminate. }
  assert (Hp : snd (model_dir_and_prepadding env (resolved env inp))
               = padding_table (model (resolved env inp)) (noise (resolved env inp))
                   (scale (resolved env inp))).
  { unfold model_dir_and_prepadding, padding_table.
    destruct Hm as [-> | [-> | ->]]; reflexivity. }
  split; [exact Hp |].
  intros w d Hi. destruct (created_inv _ _ _ _ Hi) as (_ & _ & ->).
  simpl. rewrite Hp. reflexivity.
Qed.

Lemma prepadding_follows_table_witness :
  let inp := Sample.args (Sample.clip_rgbs 640 480) {[ "noise" := 2; "scale" := 1 ]} in
  snd (model_dir_and_prepadding Sample.env (resolved Sample.env inp))
  = padding_table (model (resolved Sample.env inp)) (noise (resolved Sample.env inp))
      (scale (resolved Sample.env inp))
  /\ forall w d, instance (fst (waifu2xCreate Sample.env inp w)) = Some d ->
       Engine.prepadding <$> waifu2x d
       = Some (padding_table (model (resolved Sample.env inp))
                 (noise (resolved Sample.env inp)) (scale (resolved Sample.env inp))).
Proof.
  apply (prepadding_follows_table Sample.env
           (Sample.args (Sample.clip_rgbs 640 480) {[ "noise" := 2; "scale" := 1 ]})).
  reflexivity.
Defined.

(** The option checks bound noise and model. *)
Lemma validated_ranges env inp :
  validate env (resolved env inp) = None ->
  -1 <= noise (resolved env inp) <= 3
  /\ (model (resolved env inp) = 0 \/ model (resolved env inp) = 1
      \/ model (resolved env inp) = 2).
Proof.
  intros Hv. rewrite validate_resolved in Hv.
  unfold first_violated, stated_order in Hv. cbn [List.find] in Hv.
  destruct (satisfies env (resolved env inp) noise_range) eqn:Hs1;
    [| discriminate].
  destruct (negb (satisfies env (resolved env inp) scale_range)); [discriminate |].
  destruct (negb (satisfies env (resolved env inp) tile_w_min)); [discriminate |].
  destruct (negb (satisfies env (resolved env inp) tile_h_min)); [discriminate |].
  destruct (satisfies env (resolved env inp) model_range) eqn:Hs5;
    [| discriminate].
  cbn in Hs1, Hs5. lia.
Qed.

(** C7. For a registered filter, the engine loaded the two weight files
    of the artifact chosen by (noise, scale) inside the model directory of
    the variant: the fixed scale2.0x artifact if noise is -1, else the
    noise-only artifact of that noise level if scale is 1, else the combined
    noise and scale2.0x artifact of that noise level; the param file is
    the one whose opening was checked. *)
Theorem weight_paths_follow_artifact env inp w d :
  instance (fst (waifu2xCreate env inp w)) = Some d ->
  let o := resolved env inp in
  let dir := (plugin_dir env +:+ "/models") +:+ variant_dir (model o) in
  fst (model_dir_and_prepadding env o) = dir
  /\ Engine.loaded <$> waifu2x d
     = Some (Some (dir +:+ "/" +:+ artifact (noise o) (scale o) +:+ ".param",
                   dir +:+ "/" +:+ artifact (noise o) (scale o) +:+ ".bin",
                   fp32 o))
  /\ file_opens env (dir +:+ "/" +:+ artifact (noise o) (scale o) +:+ ".param") = true.
Proof.
  intros Hi o dir. destruct (created_inv _ _ _ _ Hi) as (_ & Hb & ->).
  destruct Hb as (Hv & _ & _ & Ho & _). fold o in Hv, Ho.
  destruct (validated_ranges _ _ Hv) as [Hn Hm]. fold o in Hn, Hm.
  assert (Hdir : fst (model_dir_and_prepadding env o) = dir).
  { unfold model_dir_and_prepadding, dir, variant_dir, plugin_dir.
    destruct Hm as [-> | [-> | ->]]; reflexivity. }
  assert (Hpaths : model_paths dir o
                   = (dir +:+ "/" +:+ artifact (noise o) (scale o) +:+ ".param",
                      dir +:+ "/" +:+ artifact (noise o) (scale o) +:+ ".bin")).
  { unfold model_paths, artifact.
    destruct (noise o =? -1) eqn:Hneg; [reflexivity |].
    rewrite (to_string_noise_level (noise o)) by lia.
    assert (noise o = 0 \/ noise o = 1 \/ noise o = 2 \/ noise o = 3)
      as [-> | [-> | [-> | ->]]] by lia;
      destruct (scale o =? 1); reflexivity. }
  rewrite Hdir, Hpaths in Ho. cbn [fst] in Ho.
  split; [exact Hdir |]. split; [| exact Ho].
  unfold instance_for, engine_for. fold o. cbn [waifu2x fmap option_fmap option_map].
  rewrite Hdir, Hpaths. reflexivity.
Qed.

Lemma weight_paths_follow_artifact_witness :
  let inp := Sample.args (Sample.clip_rgbs 640 480) {[ "noise" := 3; "model" := 1 ]} in
  let o := resolved Sample.env inp in
  let dir := (plugin_dir Sample.env +:+ "/models") +:+ variant_dir (model o) in
  fst (model_dir_and_prepadding Sample.env o) = dir
  /\ Engine.loaded <$> waifu2x (instance_for Sample.env inp)
     = Some (Some (dir +:+ "/" +:+ artifact (noise o) (scale o) +:+ ".param",
                   dir +:+ "/" +:+ artifact (noise o) (scale o) +:+ ".bin",
                   fp32 o))
  /\ file_opens Sample.env
       (dir +:+ "/" +:+ artifact (noise o) (scale o) +:+ ".param") = true.
Proof.
  apply (weight_paths_follow_artifact Sample.env
           (Sample.args (Sample.clip_rgbs 640 480) {[ "noise" := 3; "model" := 1 ]})
           Sample.idle
           (instance_for Sample.env
              (Sample.args (Sample.clip_rgbs 640 480) {[ "noise" := 3; "model" := 1 ]}))).
  reflexivity.
Defined.

(** The paths of the sample above, spelled out. *)
Example weight_paths_sample :
  Engine.loaded <$> waifu2x (instance_for Sample.env
     (Sample.args (Sample.clip_rgbs 640 480) {[ "noise" := 3; "model" := 1 ]}))
  = Some (Some ("/usr/lib/vapoursynth/models/models-upconv_7_photo/noise3_scale2.0x_model.param",
                "/usr/lib/vapoursynth/models/models-upconv_7_photo/noise3_scale2.0x_model.bin",
                false)).
Proof. reflexivity. Qed.

(** C8, as stated, fails: for a 16x24 clip without tile arguments the tile
    size resolves to 32x32, not to the frame size 16x24, and the filter is
    registered with an engine that uses 32x32 tiles. *)
Lemma tile_default_counterexample :
  let inp := Sample.args (Sample.clip_rgbs 16 24) ∅ in
  VS.ints inp !! "tile_w" = None /\ VS.ints inp !! "tile_h" = None
  /\ VS.width (VS.getVideoInfo (VS.clip inp)) = 16
  /\ VS.height (VS.getVideoInfo (VS.clip inp)) = 24
  /\ tile_w (resolved Sample.env inp) = 32
  /\ tile_h (resolved Sample.env inp) = 32
  /\ tile_w (resolved Sample.env inp) <> VS.width (VS.getVideoInfo (VS.clip inp))
  /\ tile_h (resolved Sample.env inp) <> VS.height (VS.getVideoInfo (VS.clip inp))
  /\ instance (fst (waifu2xCreate Sample.env inp Sample.idle))
     = Some (instance_for Sample.env inp)
  /\ Engine.tile_w <$> waifu2x (instance_for Sample.env inp) = Some 32.
Proof. repeat split; discriminate. Qed.

(** C8 (amended). When the tile option of an axis (tile_w for the
    horizontal one, tile_h for the vertical one) is not supplied, it defaults
    to the larger of the source frame extent along that axis (width,
    respectively height) and 32; so to the frame extent whenever that is at
    least 32. *)
Theorem tile_defaults env inp a :
  VS.ints inp !! tile_key a = None ->
  tile a (resolved env inp) = Z.max (extent a (VS.getVideoInfo (VS.clip inp))) 32
  /\ (32 <= extent a (VS.getVideoInfo (VS.clip inp)) ->
      tile a (resolved env inp) = extent a (VS.getVideoInfo (VS.clip inp))).
Proof.
  intros H.
  assert (Hmax : tile a (resolved env inp)
                 = Z.max (extent a (VS.getVideoInfo (VS.clip inp))) 32).
  { unfold resolved, read_options.
    destruct a; cbn [tile_key] in H;
      rewrite (mapGetIntSaturated_missing inp _ H);
      repeat match goal with
             | |- context [VS.mapGetIntSaturated inp ?k] =>
                 destruct (VS.mapGetIntSaturated inp k) as [? ?]
             end;
      reflexivity. }
  split; [exact Hmax |]. intros Hge. rewrite Hmax. lia.
Qed.

Lemma tile_defaults_witness :
  let inp := Sample.args (Sample.clip_rgbs 16 480) {[ "tile_w" := 64 ]} in
  tile vertical (resolved Sample.env inp)
  = Z.max (extent vertical (VS.getVideoInfo (VS.clip inp))) 32
  /\ (32 <= extent vertical (VS.getVideoInfo (VS.clip inp)) ->
      tile vertical (resolved Sample.env inp)
      = extent vertical (VS.getVideoInfo (VS.clip inp))).
Proof.
  apply (tile_defaults Sample.env
           (Sample.args (Sample.clip_rgbs 16 480) {[ "tile_w" := 64 ]}) vertical).
  reflexivity.
Defined.



(** The listing of the two sample devices. *)
Example device_listing_sample :
  device_listing (gpus Sample.env) = "0: GPU A" +:+ newline +:+ "1: GPU B" +:+ newline.
Proof. reflexivity. Qed.

(** The options of two inputs that differ at most in gpu_thread agree on
    everything but the thread count. *)
Lemma engine_for_ignores_gpu_thread env inp inp' :
  VS.clip inp = VS.clip inp' ->
  (forall k, k <> "gpu_thread" -> VS.ints inp !! k = VS.ints inp' !! k) ->
  engine_for env (resolved env inp) = engine_for env (resolved env inp').
Proof.
  intros Hc Hk.
  assert (Hget : forall k, k <> "gpu_thread" ->
                 VS.mapGetInt inp k = VS.mapGetInt inp' k).
  { intros k Hne. unfold VS.mapGetInt. rewrite (Hk k Hne). reflexivity. }
  assert (Hsat : forall k, k <> "gpu_thread" ->
                 VS.mapGetIntSaturated inp k = VS.mapGetIntSaturated inp' k).
  { intros k Hne. unfold VS.mapGetIntSaturated. rewrite (Hget k Hne). reflexivity. }
  unfold resolved, read_options. rewrite <- Hc.
  rewrite (Hsat "noise"), (Hsat "scale"), (Hsat "tile_w"), (Hsat "tile_h"),
    (Hsat "model"), (Hsat "gpu_id"), (Hget "tta"), (Hget "fp32") by discriminate.
  repeat match goal with
         | |- context [VS.mapGetIntSaturated ?i ?k] =>
             destruct (VS.mapGetIntSaturated i k) as [? ?]
         end.
  reflexivity.
Qed.

(** C10. A registered filter has an engine that was constructed with an
    engine-thread count of 1, whatever gpu_thread is: two inputs that differ
    at most in gpu_thread get the same engine. The resolved gpu_thread is
    the initial value of the semaphore and nothing else. *)
Theorem engine_thread_count_is_one env inp w d :
  instance (fst (waifu2xCreate env inp w)) = Some d ->
  Engine.num_threads <$> waifu2x d = Some 1
  /\ In (Waifu2x_new_call (gpuId (resolved env inp)) (tta (resolved env inp)) 1)
        (calls_since w (snd (waifu2xCreate env inp w)))
  /\ semaphore d = Some (gpuThread (resolved env inp))
  /\ forall inp' w' d',
       VS.clip inp = VS.clip inp' ->
       (forall k, k <> "gpu_thread" -> VS.ints inp !! k = VS.ints inp' !! k) ->
       instance (fst (waifu2xCreate env inp' w')) = Some d' ->
       waifu2x d' = waifu2x d.
Proof.
  intros Hi. destruct (created_inv _ _ _ _ Hi) as (Hacq & Hb & ->).
  split; [reflexivity |].
  split.
  { rewrite (create_filter _ _ _ Hacq Hb).
    rewrite (acquired_world _ _ (proj2 Hacq)). unfold log.
    cbn [snd numGPUInstances gpu_instance calls].
    match goal with
    | |- In _ (calls_since w {| calls := ?c1 :: ?c2 :: ?c3 :: calls w |}) =>
        rewrite (calls_since_app w _ [c1; c2; c3]) by reflexivity
    end.
    right; left; reflexivity. }
  split; [reflexivity |].
  intros inp' w' d' Hc Hk Hi'.
  destruct (created_inv _ _ _ _ Hi') as (_ & _ & ->).
  cbn [waifu2x instance_for]. f_equal. symmetry.
  apply engine_for_ignores_gpu_thread; assumption.
Qed.

Lemma engine_thread_count_is_one_witness :
  let inp := Sample.args (Sample.clip_rgbs 640 480) {[ "gpu_thread" := 4 ]} in
  Engine.num_threads <$> waifu2x (instance_for Sample.env inp) = Some 1
  /\ In (Waifu2x_new_call (gpuId (resolved Sample.env inp))
           (tta (resolved Sample.env inp)) 1)
        (calls_since Sample.idle (snd (waifu2xCreate Sample.env inp Sample.idle)))
  /\ semaphore (instance_for Sample.env inp) = Some (gpuThread (resolved Sample.env inp))
  /\ forall inp' w' d',
       VS.clip inp = VS.clip inp' ->
       (forall k, k <> "gpu_thread" -> VS.ints inp !! k = VS.ints inp' !! k) ->
       instance (fst (waifu2xCreate Sample.env inp' w')) = Some d' ->
       waifu2x d' = waifu2x (instance_for Sample.env inp).
Proof.
  apply (engine_thread_count_is_one Sample.env
           (Sample.args (Sample.clip_rgbs 640 480) {[ "gpu_thread" := 4 ]})
           Sample.idle
           (instance_for Sample.env
              (Sample.args (Sample.clip_rgbs 640 480) {[ "gpu_thread" := 4 ]}))).
  reflexivity.
Defined.

(* ===================================================================== *)
(** * Further properties of the code *)
(* ===================================================================== *)

(** ** Case analysis over the paths of waifu2xCreate *)

(** Splits into the eight ways in which [waifu2xCreate] can run; each case
    has the equation of its path as [Hpath]. *)
Ltac create_paths env inp w :=
  let Hf := fresh "Hf" in
  let Hg := fresh "Hg" in
  let Hacq := fresh "Hacq" in
  let Hv := fresh "Hv" in
  let Hl := fresh "Hl" in
  let Hp := fresh "Hp" in
  let Ho := fresh "Ho" in
  let Hwe := fresh "Hwe" in
  let Hb := fresh "Hb" in
  let Hpath := fresh "Hpath" in
  destruct (unsupported_format (VS.getVideoInfo (VS.clip inp))) eqn:Hf;
  [ pose proof (create_unsupported_format env inp w Hf) as Hpath
  | destruct (gpu_instance w || gpu_available env) eqn:Hg;
    [ assert (Hacq : acquires env inp w) by (split; assumption);
      destruct (validate env (resolved env inp)) eqn:Hv;
      [ pose proof (create_invalid env inp w _ Hacq Hv) as Hpath
      | destruct (list_gpu inp) eqn:Hl;
        [ pose proof (create_list_gpu env inp w Hacq Hv Hl) as Hpath
        | destruct ((noise (resolved env inp) =? -1)
                    && (scale (resolved env inp) =? 1)) eqn:Hp;
          [ pose proof (create_pass_through env inp w Hacq Hv Hl
                          ltac:(lia) ltac:(lia)) as Hpath
          | destruct (file_opens env
                        (fst (model_paths
                                (fst (model_dir_and_prepadding env (resolved env inp)))
                                (resolved env inp)))) eqn:Ho;
            [ destruct (weights_error env
                          (fst (model_paths
                                  (fst (model_dir_and_prepadding env (resolved env inp)))
                                  (resolved env inp)))
                          (snd (model_paths
                                  (fst (model_dir_and_prepadding env (resolved env inp)))
                                  (resolved env inp)))) eqn:Hwe;
              [ pose proof (create_weights_rejected env inp w _ Hacq Hv Hl Hp Ho Hwe)
                  as Hpath;
                cbv zeta in Hpath
              | assert (Hb : builds_engine env inp) by (repeat split; assumption);
                pose proof (create_filter env inp w Hacq Hb) as Hpath;
                cbv zeta in Hpath ]
            | pose proof (create_model_missing env inp w Hacq Hv Hl Hp Ho) as Hpath ] ] ] ]
    | pose proof (create_gpu_unavailable env inp w Hf Hg) as Hpath ] ].

(** The world after a construction that acquired the GPU: the counter is one
    higher if a filter was registered and unchanged otherwise, and the GPU
    instance is alive unless the counter is back at zero. *)
Lemma world_after_acquiring_create env inp w :
  in_int_range (numGPUInstances w) ->
  acquires env inp w ->
  let r := fst (waifu2xCreate env inp w) in
  let w' := snd (waifu2xCreate env inp w) in
  (instance r = None
   /\ numGPUInstances w' = numGPUInstances w
   /\ gpu_instance w' = negb (numGPUInstances w =? 0))
  \/ (exists d, instance r = Some d
      /\ numGPUInstances w' = wrap_int (numGPUInstances w + 1)
      /\ gpu_instance w' = true).
Proof.
  intros Hn Hacq0. cbv zeta.
  create_paths env inp w; rewrite Hpath; cbn [fst snd instance].
  - destruct Hacq0 as [Hf0 _]. congruence.
  - left. rewrite (failure_after_acquire _ _ _ Hn Hg). auto.
  - left. rewrite (acquired_world _ _ Hg). unfold log.
    cbn [numGPUInstances gpu_instance calls].
    rewrite (release_after_acquire _ _ Hn). auto.
  - left. rewrite (acquired_world _ _ Hg), (release_after_acquire _ _ Hn). auto.
  - left. rewrite (acquired_world _ _ Hg). unfold log.
    cbn [numGPUInstances gpu_instance calls].
    rewrite (release_after_acquire _ _ Hn). auto.
  - right. eexists. split; [reflexivity |].
    rewrite (acquired_world _ _ Hg). auto.
  - left. rewrite (failure_after_acquire _ _ _ Hn Hg). auto.
  - destruct Hacq0 as [_ Hg0]. congruence.
Qed.

(** ** The registry over sequences of constructions and teardowns *)

Lemma registry_inv_range w : registry_inv w -> in_int_range (numGPUInstances w).
Proof.
  unfold registry_inv, in_int_range, Cpp.INT_MIN, Cpp.INT_MAX. lia.
Qed.

Lemma registry_step_create env inp w :
  registry_inv w ->
  numGPUInstances w < Cpp.INT_MAX ->
  acquires env inp w ->
  registry_inv (snd (waifu2xCreate env inp w))
  /\ numGPUInstances (snd (waifu2xCreate env inp w))
     = numGPUInstances w
       + (match instance (fst (waifu2xCreate env inp w)) with
          | Some _ => 1
          | None => 0
          end).
Proof.
  intros Hinv Hlt Hacq.
  pose proof (registry_inv_range _ Hinv) as Hr.
  destruct Hinv as [Hb Hgi].
  destruct (world_after_acquiring_create env inp w Hr Hacq)
    as [(Hi & Hc & Hg) | (d & Hi & Hc & Hg)];
    rewrite Hi; unfold registry_inv; rewrite Hc, Hg.
  - split; [| lia]. split; [lia |]. lia.
  - rewrite wrap_int_id
      by (unfold in_int_range, Cpp.INT_MIN, Cpp.INT_MAX in *; lia).
    split; [| lia]. unfold Cpp.INT_MAX in *. split; [lia |]. lia.
Qed.

Lemma registry_step_free d w :
  registry_inv w ->
  1 <= numGPUInstances w ->
  registry_inv (waifu2xFree d w)
  /\ numGPUInstances (waifu2xFree d w) = numGPUInstances w - 1.
Proof.
  intros [Hb Hgi] Hpos.
  unfold waifu2xFree, release_gpu, log, registry_inv; simpl.
  rewrite wrap_int_id
    by (unfold in_int_range, Cpp.INT_MIN, Cpp.INT_MAX in *; lia).
  destruct (numGPUInstances w - 1 =? 0) eqn:Hz; simpl.
  - split; [| reflexivity]. unfold Cpp.INT_MAX in *. split; lia.
  - split; [| reflexivity]. rewrite Hgi. unfold Cpp.INT_MAX in *. split; lia.
Qed.

Lemma free_all_registry ds : forall w,
  registry_inv w ->
  Z.of_nat (length ds) <= numGPUInstances w ->
  registry_inv (free_all ds w)
  /\ numGPUInstances (free_all ds w) = numGPUInstances w - Z.of_nat (length ds).
Proof.
  induction ds as [| d ds IH]; intros w Hinv Hlen; simpl in *.
  - split; [exact Hinv | lia].
  - destruct (registry_step_free d w Hinv ltac:(lia)) as [Hinv' Hc'].
    destruct (IH (waifu2xFree d w) Hinv' ltac:(lia)) as [Hinv'' Hc''].
    split; [exact Hinv'' | lia].
Qed.

Lemma create_all_registry env inps : forall w,
  registry_inv w ->
  numGPUInstances w + Z.of_nat (length inps) <= Cpp.INT_MAX ->
  gpu_available env = true ->
  Forall (λ inp, unsupported_format (VS.getVideoInfo (VS.clip inp)) = false) inps ->
  registry_inv (snd (create_all env inps w))
  /\ numGPUInstances (snd (create_all env inps w))
     = numGPUInstances w + Z.of_nat (length (fst (create_all env inps w))).
Proof.
  induction inps as [| inp inps IH]; intros w Hinv Hlen Hav Hfmt.
  - simpl. split; [exact Hinv | lia].
  - inversion Hfmt as [| ? ? Hf Hrest]; subst.
    assert (Hacq : acquires env inp w).
    { split; [exact Hf |]. rewrite Hav. apply orb_true_r. }
    simpl length in Hlen.
    destruct (registry_step_create env inp w Hinv ltac:(lia) Hacq) as [Hinv1 Hc1].
    cbn [create_all].
    destruct (waifu2xCreate env inp w) as [r w1] eqn:Hcr. cbn [fst snd] in *.
    assert (Hlen1 : numGPUInstances w1 + Z.of_nat (length inps) <= Cpp.INT_MAX)
      by (destruct (instance r); lia).
    destruct (IH w1 Hinv1 Hlen1 Hav Hrest) as [Hinv2 Hc2].
    destruct (create_all env inps w1) as [ds w2]. cbn [fst snd] in *.
    split; [exact Hinv2 |].
    destruct (instance r); simpl length; lia.
Qed.

(** X1. Constructing any number of filters on clips of supported format
    and then tearing down those that were registered brings the counter back
    to its start; after the constructions the counter has grown by the
    number of registered filters; all along, the GPU instance exists exactly
    while the counter is positive. Constructions that fail a check, list the
    devices or pass the clip through take part without leaving a trace in
    the counter. *)
Theorem constructions_and_teardowns_balance env inps w :
  registry_inv w ->
  numGPUInstances w + Z.of_nat (length inps) <= Cpp.INT_MAX ->
  gpu_available env = true ->
  Forall (λ inp, unsupported_format (VS.getVideoInfo (VS.clip inp)) = false) inps ->
  let ds := fst (create_all env inps w) in
  let w1 := snd (create_all env inps w) in
  registry_inv w1
  /\ numGPUInstances w1 = numGPUInstances w + Z.of_nat (length ds)
  /\ registry_inv (free_all ds w1)
  /\ numGPUInstances (free_all ds w1) = numGPUInstances w.
Proof.
  intros Hinv Hlen Hav Hfmt ds w1.
  destruct (create_all_registry env inps w Hinv Hlen Hav Hfmt) as [Hinv1 Hc1].
  fold ds w1 in Hinv1, Hc1.
  destruct (free_all_registry ds w1 Hinv1) as [Hinv2 Hc2].
  { destruct Hinv as [? _]. lia. }
  repeat split; try assumption; try apply Hinv1; try apply Hinv2. lia.
Qed.

Lemma constructions_and_teardowns_balance_witness :
  let inps := [Sample.args (Sample.clip_rgbs 640 480) ∅;
               Sample.args (Sample.clip_rgbs 640 480) {[ "noise" := 7 ]};
               Sample.args (Sample.clip_rgbs 320 240) {[ "noise" := -1; "scale" := 1 ]};
               Sample.args (Sample.clip_rgbs 320 240) {[ "model" := 0 ]}] in
  let ds := fst (create_all Sample.env inps Sample.idle) in
  let w1 := snd (create_all Sample.env inps Sample.idle) in
  registry_inv w1
  /\ numGPUInstances w1 = numGPUInstances Sample.idle + Z.of_nat (length ds)
  /\ registry_inv (free_all ds w1)
  /\ numGPUInstances (free_all ds w1) = numGPUInstances Sample.idle.
Proof.
  apply (constructions_and_teardowns_balance Sample.env
           [Sample.args (Sample.clip_rgbs 640 480) ∅;
            Sample.args (Sample.clip_rgbs 640 480) {[ "noise" := 7 ]};
            Sample.args (Sample.clip_rgbs 320 240) {[ "noise" := -1; "scale" := 1 ]};
            Sample.args (Sample.clip_rgbs 320 240) {[ "model" := 0 ]}]
           Sample.idle).
  - unfold registry_inv, Cpp.INT_MAX. simpl. split; [lia | reflexivity].
  - unfold Cpp.INT_MAX. simpl. lia.
  - reflexivity.
  - repeat constructor.
Defined.

(** X2. Construction followed by teardown of the registered filter is
    neutral for the counter, destroys the GPU instance exactly when no other
    filter holds it, and frees the source node exactly once. *)
Theorem create_then_free_restores env inp w d :
  in_int_range (numGPUInstances w) ->
  instance (fst (waifu2xCreate env inp w)) = Some d ->
  let w' := waifu2xFree d (snd (waifu2xCreate env inp w)) in
  numGPUInstances w' = numGPUInstances w
  /\ gpu_instance w' = negb (numGPUInstances w =? 0)
  /\ gpu_destroyed (calls_since w w') = (numGPUInstances w =? 0)
  /\ freed (VS.clip inp) (calls_since w w') = 1%nat.
Proof.
  intros Hn Hi w'. subst w'.
  destruct (created_inv _ _ _ _ Hi) as (Hacq & Hb & ->).
  rewrite (create_filter _ _ _ Hacq Hb).
  rewrite (acquired_world _ _ (proj2 Hacq)).
  unfold waifu2xFree, log. cbn [snd numGPUInstances gpu_instance calls node instance_for].
  rewrite (release_after_acquire _ _ Hn).
  cbn [numGPUInstances gpu_instance].
  match goal with
  | |- context [calls_since w {| calls := ?b ++ ?c1 :: ?c2 :: ?c3 :: ?c4 :: calls w |}] =>
      rewrite (calls_since_app w _ (b ++ [c1; c2; c3; c4]))
        by (cbn [calls]; rewrite <- app_assoc; reflexivity)
  end.
  split; [reflexivity |]. split; [reflexivity |].
  split.
  - apply destroyed_in_release. reflexivity.
  - unfold freed. destruct (numGPUInstances w =? 0); simpl;
      rewrite bool_decide_eq_true_2 by reflexivity; reflexivity.
Qed.

Lemma create_then_free_restores_witness :
  let inp := Sample.args (Sample.clip_rgbs 640 480) {[ "noise" := 1 ]} in
  let w' := waifu2xFree (instance_for Sample.env inp)
              (snd (waifu2xCreate Sample.env inp Sample.one_alive)) in
  numGPUInstances w' = numGPUInstances Sample.one_alive
  /\ gpu_instance w' = negb (numGPUInstances Sample.one_alive =? 0)
  /\ gpu_destroyed (calls_since Sample.one_alive w')
     = (numGPUInstances Sample.one_alive =? 0)
  /\ freed (VS.clip inp) (calls_since Sample.one_alive w') = 1%nat.
Proof.
  apply (create_then_free_restores Sample.env
           (Sample.args (Sample.clip_rgbs 640 480) {[ "noise" := 1 ]})
           Sample.one_alive).
  - unfold in_int_range, Cpp.INT_MIN, Cpp.INT_MAX. simpl. lia.
  - reflexivity.
Defined.

(** Validation passes exactly when every constraint holds. *)
Lemma validate_none_all env inp :
  validate env (resolved env inp) = None ->
  forallb (satisfies env (resolved env inp)) stated_order = true.
Proof.
  intros Hv. rewrite validate_resolved in Hv.
  unfold first_violated, stated_order in Hv. cbn [List.find] in Hv.
  cbn [forallb stated_order].
  repeat match type of Hv with
         | context [negb (satisfies ?e ?o ?c)] =>
             destruct (satisfies e o c); cbn [negb] in Hv; [| discriminate]
         end.
  reflexivity.
Qed.

(** X3. The engine of every registered filter is configured with options
    that passed every check: noise in [-1,3], scale 1 or 2, both tile sizes
    at least 32, an existing device, and never the combination noise -1 with
    scale 1; the semaphore has between 1 and the device's compute-queue
    count permits. *)
Theorem registered_engine_is_valid env inp w d :
  instance (fst (waifu2xCreate env inp w)) = Some d ->
  exists e permits,
    waifu2x d = Some e /\ semaphore d = Some permits
    /\ -1 <= Engine.noise e <= 3
    /\ (Engine.scale e = 1 \/ Engine.scale e = 2)
    /\ 32 <= Engine.tile_w e /\ 32 <= Engine.tile_h e
    /\ 0 <= Engine.gpuid e < get_gpu_count env
    /\ ~ (Engine.noise e = -1 /\ Engine.scale e = 1)
    /\ 1 <= permits <= Ncnn.compute_queue_count (get_gpu_info env (Engine.gpuid e)).
Proof.
  intros Hi. destruct (created_inv _ _ _ _ Hi) as (_ & Hb & ->).
  destruct Hb as (Hv & _ & Hp & _).
  pose proof (validate_none_all _ _ Hv) as Hall.
  cbn [forallb stated_order satisfies] in Hall.
  exists (engine_for env (resolved env inp)), (gpuThread (resolved env inp)).
  cbn [waifu2x semaphore instance_for].
  unfold engine_for.
  cbn [Engine.configure Engine.with_weights Engine.new Engine.noise Engine.scale
       Engine.tile_w Engine.tile_h Engine.gpuid].
  repeat split; try reflexivity; lia.
Qed.

Lemma registered_engine_is_valid_witness :
  exists e permits,
    waifu2x (instance_for Sample.env
               (Sample.args (Sample.clip_rgbs 640 480) {[ "gpu_thread" := 3 ]}))
    = Some e
    /\ semaphore (instance_for Sample.env
                   (Sample.args (Sample.clip_rgbs 640 480) {[ "gpu_thread" := 3 ]}))
       = Some permits
    /\ -1 <= Engine.noise e <= 3
    /\ (Engine.scale e = 1 \/ Engine.scale e = 2)
    /\ 32 <= Engine.tile_w e /\ 32 <= Engine.tile_h e
    /\ 0 <= Engine.gpuid e < get_gpu_count Sample.env
    /\ ~ (Engine.noise e = -1 /\ Engine.scale e = 1)
    /\ 1 <= permits
       <= Ncnn.compute_queue_count (get_gpu_info Sample.env (Engine.gpuid e)).
Proof.
  apply (registered_engine_is_valid Sample.env
           (Sample.args (Sample.clip_rgbs 640 480) {[ "gpu_thread" := 3 ]})
           Sample.idle).
  reflexivity.
Defined.

(** X4. The node that a registered filter puts out depends on the source
    node and announces the format of the source (constant RGB, 32-bit float)
    and the source dimensions multiplied by the scale, which is 1 or 2, in
    [int] arithmetic: exactly the scale times the source dimension, and
    positive, whenever that product fits an [int], and the low 32 bits of
    the product otherwise. *)
Theorem registered_output_geometry env inp w d :
  instance (fst (waifu2xCreate env inp w)) = Some d ->
  let vi0 := VS.getVideoInfo (VS.clip inp) in
  let s := scale (resolved env inp) in
  out (fst (waifu2xCreate env inp w))
  = OutClip (VS.FilterClip "waifu2x-ncnn-Vulkan" (vi d) (VS.clip inp))
  /\ node d = VS.clip inp
  /\ (s = 1 \/ s = 2)
  /\ VS.width (vi d) = wrap_int (VS.width vi0 * s)
  /\ VS.height (vi d) = wrap_int (VS.height vi0 * s)
  /\ (VS.width vi0 * s <= Cpp.INT_MAX ->
      VS.width (vi d) = VS.width vi0 * s /\ 0 < VS.width (vi d))
  /\ (VS.height vi0 * s <= Cpp.INT_MAX ->
      VS.height (vi d) = VS.height vi0 * s /\ 0 < VS.height (vi d))
  /\ VS.format (vi d) = VS.format vi0
  /\ VS.colorFamily (VS.format (vi d)) = VS.cfRGB
  /\ VS.sampleType (VS.format (vi d)) = VS.stFloat
  /\ VS.bitsPerSample (VS.format (vi d)) = 32.
Proof.
  intros Hi vi0 s.
  destruct (created_inv _ _ _ _ Hi) as (Hacq & Hb & ->).
  rewrite (create_filter _ _ _ Hacq Hb).
  destruct Hb as (Hv & _).
  pose proof (validate_none_all _ _ Hv) as Hall.
  cbn [forallb stated_order satisfies] in Hall.
  destruct Hacq as [Hf _]. fold vi0 in Hf.
  unfold unsupported_format, VS.isConstantVideoFormat in Hf.
  apply orb_false_iff in Hf as [Hf H32].
  apply orb_false_iff in Hf as [Hf Hst].
  apply orb_false_iff in Hf as [Hf Hcf].
  apply negb_false_iff in Hst, Hcf, Hf.
  apply bool_decide_eq_true_1 in Hst, Hcf.
  apply andb_true_iff in Hf as [Hf _].
  cbn [fst out vi node instance_for scaled_vi VS.width VS.height VS.format].
  fold vi0 s. unfold mul_int.
  assert (Hs : s = 1 \/ s = 2) by (subst s; lia).
  assert (Hfit : forall x, 0 < x -> x * s <= Cpp.INT_MAX ->
                 wrap_int (x * s) = x * s /\ 0 < wrap_int (x * s)).
  { intros x Hx Hle.
    rewrite wrap_int_id
      by (unfold in_int_range, Cpp.INT_MIN, Cpp.INT_MAX in *;
          destruct Hs as [-> | ->]; lia).
    destruct Hs as [-> | ->]; lia. }
  repeat split; try assumption; try reflexivity; try lia;
    try (apply Hfit; [lia | assumption]).
Qed.

Lemma registered_output_geometry_witness :
  let inp := Sample.args (Sample.clip_rgbs 640 480) {[ "noise" := 2; "scale" := 1 ]} in
  let d := instance_for Sample.env inp in
  let vi0 := VS.getVideoInfo (VS.clip inp) in
  let s := scale (resolved Sample.env inp) in
  out (fst (waifu2xCreate Sample.env inp Sample.idle))
  = OutClip (VS.FilterClip "waifu2x-ncnn-Vulkan" (vi d) (VS.clip inp))
  /\ node d = VS.clip inp
  /\ (s = 1 \/ s = 2)
  /\ VS.width (vi d) = wrap_int (VS.width vi0 * s)
  /\ VS.height (vi d) = wrap_int (VS.height vi0 * s)
  /\ (VS.width vi0 * s <= Cpp.INT_MAX ->
      VS.width (vi d) = VS.width vi0 * s /\ 0 < VS.width (vi d))
  /\ (VS.height vi0 * s <= Cpp.INT_MAX ->
      VS.height (vi d) = VS.height vi0 * s /\ 0 < VS.height (vi d))
  /\ VS.format (vi d) = VS.format vi0
  /\ VS.colorFamily (VS.format (vi d)) = VS.cfRGB
  /\ VS.sampleType (VS.format (vi d)) = VS.stFloat
  /\ VS.bitsPerSample (VS.format (vi d)) = 32.
Proof.
  apply (registered_output_geometry Sample.env
           (Sample.args (Sample.clip_rgbs 640 480) {[ "noise" := 2; "scale" := 1 ]})
           Sample.idle).
  reflexivity.
Defined.

(** A clip 2^30 wide at scale 2: the product does not fit an [int], and the
    registered filter announces a width of -2147483648. *)
Example overflowing_width_wraps :
  let inp := Sample.args (Sample.clip_rgbs 1073741824 480) ∅ in
  instance (fst (waifu2xCreate Sample.env inp Sample.idle))
  = Some (instance_for Sample.env inp)
  /\ VS.width (vi (instance_for Sample.env inp)) = -2147483648
  /\ VS.height (vi (instance_for Sample.env inp)) = 960.
Proof. vm_compute. repeat split. Qed.

(** ** Reading the arguments *)

Lemma resolved_noise_supplied env inp v :
  VS.ints inp !! "noise" = Some v ->
  noise (resolved env inp) = Z.max Cpp.INT_MIN (Z.min Cpp.INT_MAX v).
Proof.
  intros H. unfold resolved, read_options.
  assert (Hn : VS.mapGetIntSaturated inp "noise"
               = (Z.max Cpp.INT_MIN (Z.min Cpp.INT_MAX v), false)).
  { unfold VS.mapGetIntSaturated, VS.mapGetInt. rewrite H. reflexivity. }
  rewrite Hn.
  repeat match goal with
         | |- context [VS.mapGetIntSaturated inp ?k] =>
             destruct (VS.mapGetIntSaturated inp k) as [? ?]
         end.
  reflexivity.
Qed.

(** X5. A supplied noise value outside [-1,3] is rejected whatever its
    size: the 64-bit argument is saturated to int, not truncated, so that a
    value such as 2^32 + 1 does not come back as 1. For a clip of supported
    format and an available GPU the error names the noise constraint and no
    filter is registered. *)
Theorem supplied_noise_out_of_range_rejected env inp w v :
  VS.ints inp !! "noise" = Some v ->
  v < -1 \/ 3 < v ->
  acquires env inp w ->
  out (fst (waifu2xCreate env inp w))
  = OutError (Some "waifu2x-ncnn-Vulkan: noise must be between -1 and 3 (inclusive)")
  /\ instance (fst (waifu2xCreate env inp w)) = None.
Proof.
  intros Hk Hv Hacq.
  assert (Hn : satisfies env (resolved env inp) noise_range = false).
  { cbn [satisfies]. rewrite (resolved_noise_supplied env inp v Hk).
    unfold Cpp.INT_MIN, Cpp.INT_MAX. lia. }
  assert (Hval : validate env (resolved env inp)
                 = Some (thrown env (resolved env inp) noise_range)).
  { rewrite validate_resolved. unfold first_violated, stated_order.
    cbn [List.find]. rewrite Hn. reflexivity. }
  rewrite (create_invalid _ _ _ _ Hacq Hval). split; reflexivity.
Qed.

Lemma supplied_noise_out_of_range_rejected_witness :
  let inp := Sample.args (Sample.clip_rgbs 640 480) {[ "noise" := 4294967297 ]} in
  out (fst (waifu2xCreate Sample.env inp Sample.idle))
  = OutError (Some "waifu2x-ncnn-Vulkan: noise must be between -1 and 3 (inclusive)")
  /\ instance (fst (waifu2xCreate Sample.env inp Sample.idle)) = None.
Proof.
  apply (supplied_noise_out_of_range_rejected Sample.env
           (Sample.args (Sample.clip_rgbs 640 480) {[ "noise" := 4294967297 ]})
           Sample.idle 4294967297).
  - reflexivity.
  - right. lia.
  - split; reflexivity.
Defined.

Lemma resolved_without_arguments env inp :
  VS.ints inp = ∅ ->
  resolved env inp
  = {| noise := 0; scale := 2;
       tile_w := Z.max (VS.width (VS.getVideoInfo (VS.clip inp))) 32;
       tile_h := Z.max (VS.height (VS.getVideoInfo (VS.clip inp))) 32;
       model := 2; gpuId := default_gpu_index env; gpuThread := 2;
       tta := false; fp32 := false |}
  /\ list_gpu inp = false.
Proof.
  intros H.
  assert (Hm : forall k, VS.mapGetInt inp k = (0, true)).
  { intros k. unfold VS.mapGetInt. rewrite H, lookup_empty. reflexivity. }
  assert (Hs : forall k, VS.mapGetIntSaturated inp k = (0, true)).
  { intros k. apply mapGetIntSaturated_missing. rewrite H. apply lookup_empty. }
  unfold resolved, read_options, list_gpu. rewrite !Hs, !Hm. split; reflexivity.
Qed.

(** X6. With no optional argument at all, a clip of supported format, an
    available GPU, a default device that exists and has at least two compute
    queues, a param file that opens and weights that the engine loads
    without error, construction registers a filter for the cunet model with
    noise 0 and scale 2: padding 18, tiles the size of the frame but at
    least 32, one engine thread, two permits, the weights
    models-cunet/noise0_scale2.0x_model next to the plugin, and an output of
    twice the source size in [int] arithmetic. *)
Theorem construction_with_defaults env inp w :
  VS.ints inp = ∅ ->
  acquires env inp w ->
  0 <= default_gpu_index env < get_gpu_count env ->
  2 <= Ncnn.compute_queue_count (get_gpu_info env (default_gpu_index env)) ->
  file_opens env
    (((plugin_dir env +:+ "/models") +:+ "/models-cunet")
     +:+ "/noise0_scale2.0x_model.param") = true ->
  weights_error env
    (((plugin_dir env +:+ "/models") +:+ "/models-cunet")
     +:+ "/noise0_scale2.0x_model.param")
    (((plugin_dir env +:+ "/models") +:+ "/models-cunet")
     +:+ "/noise0_scale2.0x_model.bin") = None ->
  let vi0 := VS.getVideoInfo (VS.clip inp) in
  instance (fst (waifu2xCreate env inp w))
  = Some {| node := VS.clip inp;
            vi := {| VS.format := VS.format vi0;
                     VS.width := wrap_int (VS.width vi0 * 2);
                     VS.height := wrap_int (VS.height vi0 * 2) |};
            waifu2x := Some
              {| Engine.gpuid := default_gpu_index env;
                 Engine.tta_mode := false;
                 Engine.num_threads := 1;
                 Engine.loaded := Some
                   (((plugin_dir env +:+ "/models") +:+ "/models-cunet")
                    +:+ "/noise0_scale2.0x_model.param",
                    ((plugin_dir env +:+ "/models") +:+ "/models-cunet")
                    +:+ "/noise0_scale2.0x_model.bin",
                    false);
                 Engine.noise := 0;
                 Engine.scale := 2;
                 Engine.tile_w := Z.max (VS.width vi0) 32;
                 Engine.tile_h := Z.max (VS.height vi0) 32;
                 Engine.prepadding := 18 |};
            semaphore := Some 2 |}.
Proof.
  intros He Hacq Hid Hq Hopen Hload vi0.
  destruct (resolved_without_arguments env inp He) as [Hres Hl].
  assert (Hb : builds_engine env inp).
  { unfold builds_engine. rewrite Hres. cbv zeta. split; [| split; [exact Hl |]].
    - rewrite <- Hres, validate_resolved, Hres.
      unfold first_violated, stated_order. cbn [List.find satisfies].
      cbn [noise scale tile_w tile_h model gpuId gpuThread].
      replace (negb ((-1 <=? 0) && (0 <=? 3))) with false by reflexivity.
      replace (negb ((2 =? 1) || (2 =? 2))) with false by reflexivity.
      replace (negb (32 <=? Z.max (VS.width (VS.getVideoInfo (VS.clip inp))) 32))
        with false by lia.
      replace (negb (32 <=? Z.max (VS.height (VS.getVideoInfo (VS.clip inp))) 32))
        with false by lia.
      replace (negb ((2 =? 0) || (2 =? 1) || (2 =? 2))) with false by reflexivity.
      replace (negb (implb (2 =? 1) (2 =? 2))) with false by reflexivity.
      replace (negb ((0 <=? default_gpu_index env)
                     && (default_gpu_index env <? get_gpu_count env)))
        with false by lia.
      replace (negb ((1 <=? 2)
                     && (2 <=? Ncnn.compute_queue_count
                                 (get_gpu_info env (default_gpu_index env)))))
        with false by lia.
      reflexivity.
    - split; [reflexivity |]. split; [exact Hopen | exact Hload]. }
  rewrite (create_filter _ _ _ Hacq Hb). cbn [fst instance].
  unfold instance_for, engine_for, scaled_vi. rewrite Hres. reflexivity.
Qed.

Lemma construction_with_defaults_witness :
  let inp := Sample.args (Sample.clip_rgbs 20 480) ∅ in
  let vi0 := VS.getVideoInfo (VS.clip inp) in
  instance (fst (waifu2xCreate Sample.env inp Sample.idle))
  = Some {| node := VS.clip inp;
            vi := {| VS.format := VS.format vi0;
                     VS.width := wrap_int (VS.width vi0 * 2);
                     VS.height := wrap_int (VS.height vi0 * 2) |};
            waifu2x := Some
              {| Engine.gpuid := default_gpu_index Sample.env;
                 Engine.tta_mode := false;
                 Engine.num_threads := 1;
                 Engine.loaded := Some
                   (((plugin_dir Sample.env +:+ "/models") +:+ "/models-cunet")
                    +:+ "/noise0_scale2.0x_model.param",
                    ((plugin_dir Sample.env +:+ "/models") +:+ "/models-cunet")
                    +:+ "/noise0_scale2.0x_model.bin",
                    false);
                 Engine.noise := 0;
                 Engine.scale := 2;
                 Engine.tile_w := Z.max (VS.width vi0) 32;
                 Engine.tile_h := Z.max (VS.height vi0) 32;
                 Engine.prepadding := 18 |};
            semaphore := Some 2 |}.
Proof.
  apply (construction_with_defaults Sample.env
           (Sample.args (Sample.clip_rgbs 20 480) ∅) Sample.idle).
  - reflexivity.
  - split; reflexivity.
  - unfold get_gpu_count. simpl. lia.
  - simpl. lia.
  - reflexivity.
  - reflexivity.
Defined.

(** X7. The default of two permits needs a device with two compute
    queues: when gpu_thread is not supplied, every other constraint holds
    and the selected device has fewer than two compute queues, construction
    fails on the thread-count check and registers nothing, also when only
    the device listing was asked for. *)
Theorem default_threads_need_two_queues env inp w :
  VS.ints inp !! "gpu_thread" = None ->
  acquires env inp w ->
  forallb (satisfies env (resolved env inp))
    [noise_range; scale_range; tile_w_min; tile_h_min; model_range;
     scale1_needs_cunet; gpu_id_valid] = true ->
  Ncnn.compute_queue_count (get_gpu_info env (gpuId (resolved env inp))) < 2 ->
  first_violated env (resolved env inp) = Some gpu_thread_range
  /\ instance (fst (waifu2xCreate env inp w)) = None
  /\ exists m, out (fst (waifu2xCreate env inp w)) = OutError m.
Proof.
  intros Hk Hacq Hall Hq.
  assert (Ht : gpuThread (resolved env inp) = 2).
  { unfold resolved, read_options.
    rewrite (mapGetIntSaturated_missing inp "gpu_thread" Hk).
    repeat match goal with
           | |- context [VS.mapGetIntSaturated inp ?k] =>
               destruct (VS.mapGetIntSaturated inp k) as [? ?]
           end.
    reflexivity. }
  assert (Hfv : first_violated env (resolved env inp) = Some gpu_thread_range).
  { unfold first_violated, stated_order. cbn [List.find].
    cbn [forallb] in Hall.
    repeat match type of Hall with
           | (satisfies ?e ?o ?c && _) = true =>
               let H := fresh in
               apply andb_true_iff in Hall as [H Hall]; rewrite H; cbn [negb]
           end.
    assert (Hs : satisfies env (resolved env inp) gpu_thread_range = false).
    { cbn [satisfies]. rewrite Ht. lia. }
    rewrite Hs. reflexivity. }
  split; [exact Hfv |].
  assert (Hval : validate env (resolved env inp)
                 = Some (thrown env (resolved env inp) gpu_thread_range)).
  { rewrite validate_resolved, Hfv. reflexivity. }
  rewrite (create_invalid _ _ _ _ Hacq Hval). split; [reflexivity |].
  eexists. reflexivity.
Qed.

Lemma default_threads_need_two_queues_witness :
  let inp := Sample.args (Sample.clip_rgbs 640 480) {[ "gpu_id" := 1; "list_gpu" := 1 ]} in
  first_violated Sample.env (resolved Sample.env inp) = Some gpu_thread_range
  /\ instance (fst (waifu2xCreate Sample.env inp Sample.idle)) = None
  /\ exists m, out (fst (waifu2xCreate Sample.env inp Sample.idle)) = OutError m.
Proof.
  apply (default_threads_need_two_queues Sample.env
           (Sample.args (Sample.clip_rgbs 640 480) {[ "gpu_id" := 1; "list_gpu" := 1 ]})
           Sample.idle).
  - reflexivity.
  - split; reflexivity.
  - reflexivity.
  - vm_compute. reflexivity.
Defined.

(** ** Which arguments matter *)

(** X8. [waifu2xCreate] reads the clip and the optional integer arguments
    that [VapourSynthPluginInit2] declares in the argument string, and
    nothing else: two argument maps with the same clip that agree on the
    declared names give the same result in the same surroundings. *)
Theorem create_reads_declared_arguments_only env inp inp' w :
  VS.clip inp = VS.clip inp' ->
  (forall k, In k Registration.int_options -> VS.ints inp !! k = VS.ints inp' !! k) ->
  waifu2xCreate env inp w = waifu2xCreate env inp' w.
Proof.
  intros Hc Hk.
  assert (Hin : forall k,
             In k ["noise"; "scale"; "tile_w"; "tile_h"; "model"; "gpu_id";
                   "gpu_thread"; "tta"; "fp32"; "list_gpu"] ->
             VS.ints inp !! k = VS.ints inp' !! k).
  { intros k H. apply Hk.
    replace Registration.int_options
      with ["noise"; "scale"; "tile_w"; "tile_h"; "model"; "gpu_id";
            "gpu_thread"; "tta"; "fp32"; "list_gpu"] by (vm_compute; reflexivity).
    exact H. }
  assert (Hget : forall k,
             In k ["noise"; "scale"; "tile_w"; "tile_h"; "model"; "gpu_id";
                   "gpu_thread"; "tta"; "fp32"; "list_gpu"] ->
             VS.mapGetInt inp k = VS.mapGetInt inp' k).
  { intros k H. unfold VS.mapGetInt. rewrite (Hin k H). reflexivity. }
  assert (Hsat : forall k,
             In k ["noise"; "scale"; "tile_w"; "tile_h"; "model"; "gpu_id";
                   "gpu_thread"; "tta"; "fp32"; "list_gpu"] ->
             VS.mapGetIntSaturated inp k = VS.mapGetIntSaturated inp' k).
  { intros k H. unfold VS.mapGetIntSaturated. rewrite (Hget k H). reflexivity. }
  assert (Hro : forall vi0, read_options env inp vi0 = read_options env inp' vi0).
  { intros vi0. unfold read_options.
    rewrite (Hsat "noise"), (Hsat "scale"), (Hsat "tile_w"), (Hsat "tile_h"),
      (Hsat "model"), (Hsat "gpu_id"), (Hsat "gpu_thread"),
      (Hget "tta"), (Hget "fp32") by (simpl; tauto).
    reflexivity. }
  assert (Hlg : list_gpu inp = list_gpu inp').
  { unfold list_gpu. rewrite (Hget "list_gpu") by (simpl; tauto). reflexivity. }
  unfold waifu2xCreate, try_block.
  rewrite <- Hc, Hlg, Hro. reflexivity.
Qed.

Lemma create_reads_declared_arguments_only_witness :
  waifu2xCreate Sample.env
    (Sample.args (Sample.clip_rgbs 640 480) {[ "noise" := 1; "sharpen" := 5 ]})
    Sample.idle
  = waifu2xCreate Sample.env
      (Sample.args (Sample.clip_rgbs 640 480) {[ "noise" := 1 ]})
      Sample.idle.
Proof.
  apply (create_reads_declared_arguments_only Sample.env
           (Sample.args (Sample.clip_rgbs 640 480) {[ "noise" := 1; "sharpen" := 5 ]})
           (Sample.args (Sample.clip_rgbs 640 480) {[ "noise" := 1 ]})
           Sample.idle).
  - reflexivity.
  - intros k Hin. vm_compute in Hin.
    repeat (destruct Hin as [<- | Hin]; [reflexivity |]).
    destruct Hin.
Defined.

(** ** The models directory *)

Lemma rfind_split c s :
  match Cpp.rfind c s with
  | Some i =>
      exists file, s = Cpp.substr0 s (Some i) +:+ String c file
                   /\ Cpp.rfind c file = None
  | None => Cpp.substr0 s None = s
  end.
Proof.
  induction s as [| a rest IH]; [reflexivity |].
  cbn [Cpp.rfind]. destruct (Cpp.rfind c rest) as [i |] eqn:Hr.
  - destruct IH as (file & Hs & Hf). exists file. split; [| exact Hf].
    cbn [Cpp.substr0 String.substring] in Hs |- *.
    change (String a rest = String a (String.substring 0 i rest +:+ String c file)).
    f_equal. exact Hs.
  - destruct (Ascii.eqb a c) eqn:Hac; [| reflexivity].
    apply Ascii.eqb_eq in Hac. subst a.
    exists rest. split; [reflexivity | exact Hr].
Qed.

Lemma prefix_app (a b : string) : String.prefix a (a +:+ b) = true.
Proof.
  induction a as [| x a IH].
  - destruct b; reflexivity.
  - change (String.prefix (String x a) (String x (a +:+ b)) = true).
    cbn [String.prefix]. destruct (ascii_dec x x); [exact IH | congruence].
Qed.

Lemma model_dir_shape env o :
  exists suffix,
    fst (model_dir_and_prepadding env o) = (plugin_dir env +:+ "/models") +:+ suffix.
Proof.
  unfold model_dir_and_prepadding. fold (plugin_dir env).
  destruct (model o) as [| [[p | p |] | [p | p |] |] | p]; cbn [fst];
    first [ eexists; reflexivity
          | exists ""; symmetry; apply string_app_nil_r ].
Qed.

(** X9. The weights are looked for next to the plugin: the plugin path
    splits at its last slash into a directory and a file name without slash,
    and the model directory of every model lies below the models directory
    in that directory. A plugin path without any slash is taken as the
    directory itself (rfind gives npos and substr the whole string). *)
Theorem models_directory_is_next_to_plugin env o :
  String.prefix (plugin_dir env +:+ "/models")
    (fst (model_dir_and_prepadding env o)) = true
  /\ match Cpp.rfind "/"%char (plugin_path env) with
     | Some _ =>
         exists file, plugin_path env = plugin_dir env +:+ "/" +:+ file
                      /\ Cpp.rfind "/"%char file = None
     | None => plugin_dir env = plugin_path env
     end.
Proof.
  split.
  - destruct (model_dir_shape env o) as [suffix ->]. apply prefix_app.
  - unfold plugin_dir.
    pose proof (rfind_split "/"%char (plugin_path env)) as H.
    destruct (Cpp.rfind "/"%char (plugin_path env)); exact H.
Qed.

(** ** What the caller gets to see of a failure *)

(** X10. Every error text that a construction reports starts with the
    name of the plugin, except the text passed on from the text plugin when
    the device listing fails. *)
Theorem construction_errors_carry_plugin_name env inp w m :
  out (fst (waifu2xCreate env inp w)) = OutError (Some m) ->
  String.prefix "waifu2x-ncnn-Vulkan: " m = true
  \/ (list_gpu inp = true /\ text_error env = Some m).
Proof.
  intros H.
  create_paths env inp w; rewrite Hpath in H; cbn [fst out] in H.
  - inversion H. left. reflexivity.
  - destruct c as [s | s]; cbn in H; [| discriminate].
    inversion H. left. apply (prefix_app error_prefix s).
  - destruct (text_error env) as [e |]; [| discriminate].
    inversion H. right. auto.
  - discriminate.
  - inversion H. left. apply (prefix_app error_prefix).
  - discriminate.
  - inversion H. left. reflexivity.
  - inversion H. left. reflexivity.
Qed.

Lemma construction_errors_carry_plugin_name_witness :
  String.prefix "waifu2x-ncnn-Vulkan: " "waifu2x-ncnn-Vulkan: tile_h must be at least 32"
  = true
  \/ (list_gpu (Sample.args (Sample.clip_rgbs 640 480) {[ "tile_h" := 31 ]}) = true
      /\ text_error Sample.env
         = Some "waifu2x-ncnn-Vulkan: tile_h must be at least 32").
Proof.
  apply (construction_errors_carry_plugin_name Sample.env
           (Sample.args (Sample.clip_rgbs 640 480) {[ "tile_h" := 31 ]})
           Sample.idle).
  reflexivity.
Defined.

(** ** Ownership of the source node *)

Lemma release_gpu_calls w :
  calls (release_gpu w)
  = (if wrap_int (numGPUInstances w - 1) =? 0 then [destroy_gpu_instance_call] else [])
    ++ calls w.
Proof. unfold release_gpu. destruct (_ =? 0); reflexivity. Qed.

Lemma freed_in_release n (b : bool) cs :
  freed n ((if b then [destroy_gpu_instance_call] else []) ++ cs) = freed n cs.
Proof. destruct b; reflexivity. Qed.

Lemma calls_since_release w0 w cs :
  calls w = cs ++ calls w0 ->
  calls_since w0 (release_gpu w)
  = (if wrap_int (numGPUInstances w - 1) =? 0 then [destroy_gpu_instance_call] else [])
    ++ cs.
Proof.
  intros H. apply calls_since_app.
  rewrite release_gpu_calls, H, app_assoc. reflexivity.
Qed.

(** X11. [freeNode] is called on the source node exactly when the handler
    of the try block runs: once for every construction that ends in an
    error of its own, never when a node is put out (the registered filter,
    the passed-through source or the listing keep the reference), and never
    when the device listing fails inside the text plugin, to which the
    reference was handed over. *)
Theorem source_node_freed_by_handler_only env inp w :
  let r := fst (waifu2xCreate env inp w) in
  let cs := calls_since w (snd (waifu2xCreate env inp w)) in
  (freed (VS.clip inp) cs
   = match out r with OutClip _ => 0%nat | OutError _ => 1%nat end
   /\ ~ (list_gpu inp = true /\ acquires env inp w
         /\ validate env (resolved env inp) = None /\ is_Some (text_error env)))
  \/ (freed (VS.clip inp) cs = 0%nat
      /\ list_gpu inp = true /\ acquires env inp w
      /\ validate env (resolved env inp) = None
      /\ exists e, text_error env = Some e /\ out r = OutError (Some e)).
Proof.
  cbv zeta.
  assert (Hself : bool_decide (VS.clip inp = VS.clip inp) = true)
    by (apply bool_decide_eq_true_2; reflexivity).
  create_paths env inp w; rewrite Hpath; cbn [fst snd out].
  - left. split.
    + rewrite (calls_since_release w _ [freeNode_call (VS.clip inp)]) by reflexivity.
      rewrite freed_in_release. unfold freed. simpl. rewrite Hself. reflexivity.
    + intros (_ & [Hf0 _] & _). congruence.
  - left. split.
    + rewrite (acquired_world _ _ Hg).
      rewrite (calls_since_release w _
                 [freeNode_call (VS.clip inp); create_gpu_instance_call])
        by reflexivity.
      rewrite freed_in_release. unfold freed. simpl. rewrite Hself. reflexivity.
    + intros (_ & _ & Hv0 & _). congruence.
  - rewrite (acquired_world _ _ Hg).
    rewrite (calls_since_release w _
               [invoke_Text_call (VS.clip inp) (list_gpu_text env);
                create_gpu_instance_call])
      by reflexivity.
    rewrite freed_in_release.
    destruct (text_error env) as [e |] eqn:Ht.
    + right. repeat split; try assumption. exists e. auto.
    + left. split; [reflexivity |].
      intros (_ & _ & _ & [x Hx]). discriminate.
  - left. split.
    + rewrite (acquired_world _ _ Hg).
      rewrite (calls_since_release w _ [create_gpu_instance_call]) by reflexivity.
      rewrite freed_in_release. reflexivity.
    + intros (Hl0 & _). congruence.
  - left. split.
    + rewrite (acquired_world _ _ Hg). unfold log.
      cbn [numGPUInstances gpu_instance calls].
      match goal with
      | |- context [release_gpu {| calls := ?c1 :: ?c2 :: ?c3 :: ?c4 :: calls w |}] =>
          rewrite (calls_since_release w _ [c1; c2; c3; c4]) by reflexivity
      end.
      rewrite freed_in_release. unfold freed. simpl. rewrite Hself. reflexivity.
    + intros (Hl0 & _). congruence.
  - left. split.
    + rewrite (acquired_world _ _ Hg). unfold log. cbn [calls].
      match goal with
      | |- context [calls_since w {| calls := ?c1 :: ?c2 :: ?c3 :: calls w |}] =>
          rewrite (calls_since_app w _ [c1; c2; c3]) by reflexivity
      end.
      reflexivity.
    + intros (Hl0 & _). congruence.
  - left. split.
    + rewrite (acquired_world _ _ Hg).
      rewrite (calls_since_release w _
                 [freeNode_call (VS.clip inp); create_gpu_instance_call])
        by reflexivity.
      rewrite freed_in_release. unfold freed. simpl. rewrite Hself. reflexivity.
    + intros (Hl0 & _). congruence.
  - left. split.
    + rewrite (calls_since_release w _
                 [freeNode_call (VS.clip inp); create_gpu_instance_call])
        by reflexivity.
      rewrite freed_in_release. unfold freed. simpl. rewrite Hself. reflexivity.
    + intros (_ & [_ Hg0] & _). congruence.
Qed.

(** ** Scale 1 *)

(** X12. A registered filter with scale 1 always runs the cunet model
    with a noise level between 0 and 3: the other models are rejected and
    noise -1 with scale 1 never builds an engine. Its padding is 28, and
    scale 1 is the only case with that padding. The announced geometry
    is the one of the source: the products of lines 206-207 are products
    of int by 1, so they give the dimensions back whenever these are
    values of an int. *)
Theorem scale_one_means_cunet_denoise env inp w d :
  instance (fst (waifu2xCreate env inp w)) = Some d ->
  (scale (resolved env inp) = 1 ->
   model (resolved env inp) = 2 /\ 0 <= noise (resolved env inp) <= 3
   /\ vi d = {| VS.format := VS.format (VS.getVideoInfo (VS.clip inp));
                VS.width := wrap_int (VS.width (VS.getVideoInfo (VS.clip inp)));
                VS.height := wrap_int (VS.height (VS.getVideoInfo (VS.clip inp))) |}
   /\ (in_int_range (VS.width (VS.getVideoInfo (VS.clip inp))) ->
       in_int_range (VS.height (VS.getVideoInfo (VS.clip inp))) ->
       vi d = VS.getVideoInfo (VS.clip inp)))
  /\ (Engine.prepadding <$> waifu2x d = Some 28 <-> scale (resolved env inp) = 1).
Proof.
  intros Hi. destruct (created_inv _ _ _ _ Hi) as (_ & Hb & ->).
  destruct Hb as (Hv & _ & Hp & _).
  pose proof (validate_none_all _ _ Hv) as Hall.
  cbn [forallb stated_order satisfies] in Hall.
  assert (Hm : model (resolved env inp) = 0 \/ model (resolved env inp) = 1
               \/ model (resolved env inp) = 2) by lia.
  split.
  - intros Hs. split; [lia |]. split; [lia |].
    cbn [vi instance_for]. unfold scaled_vi, mul_int.
    rewrite Hs, !Z.mul_1_r. split; [reflexivity |].
    intros Hrw Hrh. rewrite !wrap_int_id by assumption.
    destruct (VS.getVideoInfo (VS.clip inp)); reflexivity.
  - cbn [waifu2x instance_for fmap option_fmap option_map].
    unfold engine_for. cbn [Engine.configure Engine.prepadding].
    unfold model_dir_and_prepadding.
    split.
    + intros H. inversion H as [H1]. clear H.
      destruct Hm as [Hm | [Hm | Hm]]; rewrite Hm in H1; cbn [snd] in H1;
        try discriminate.
      destruct ((noise (resolved env inp) =? -1) || (scale (resolved env inp) =? 2))
        eqn:Hc; [discriminate |]. lia.
    + intros Hs.
      assert (Hm2 : model (resolved env inp) = 2) by lia.
      rewrite Hm2. cbn [snd].
      replace ((noise (resolved env inp) =? -1) || (scale (resolved env inp) =? 2))
        with false by lia.
      reflexivity.
Qed.

Lemma scale_one_means_cunet_denoise_witness :
  let inp := Sample.args (Sample.clip_rgbs 640 480) {[ "scale" := 1; "noise" := 3 ]} in
  (scale (resolved Sample.env inp) = 1 ->
   model (resolved Sample.env inp) = 2 /\ 0 <= noise (resolved Sample.env inp) <= 3
   /\ vi (instance_for Sample.env inp)
      = {| VS.format := VS.format (VS.getVideoInfo (VS.clip inp));
           VS.width := wrap_int (VS.width (VS.getVideoInfo (VS.clip inp)));
           VS.height := wrap_int (VS.height (VS.getVideoInfo (VS.clip inp))) |}
   /\ (in_int_range (VS.width (VS.getVideoInfo (VS.clip inp))) ->
       in_int_range (VS.height (VS.getVideoInfo (VS.clip inp))) ->
       vi (instance_for Sample.env inp) = VS.getVideoInfo (VS.clip inp)))
  /\ (Engine.prepadding <$> waifu2x (instance_for Sample.env inp) = Some 28
      <-> scale (resolved Sample.env inp) = 1).
Proof.
  apply (scale_one_means_cunet_denoise Sample.env
           (Sample.args (Sample.clip_rgbs 640 480) {[ "scale" := 1; "noise" := 3 ]})
           Sample.idle).
  reflexivity.
Defined.

(** ** Precedence of the short circuits *)

(** X13. The device listing takes precedence over the pass-through: with
    list_gpu set together with noise -1 and scale 1, the output is the clip
    of the text plugin, not the source node. *)
Theorem list_gpu_precedes_pass_through env inp w :
  acquires env inp w ->
  validate env (resolved env inp) = None ->
  list_gpu inp = true ->
  noise (resolved env inp) = -1 ->
  scale (resolved env inp) = 1 ->
  text_error env = None ->
  out (fst (waifu2xCreate env inp w))
  = OutClip (VS.TextClip (VS.clip inp) (list_gpu_text env))
  /\ out (fst (waifu2xCreate env inp w)) <> OutClip (VS.clip inp).
Proof.
  intros Hacq Hv Hl _ _ Ht.
  rewrite (create_list_gpu _ _ _ Hacq Hv Hl), Ht. cbn [fst out].
  split; [reflexivity |].
  intros H. inversion H as [H1].
  assert (Hsize : forall n t, VS.TextClip n t <> n).
  { induction n as [| c IHc t0 |]; intros t Heq; try discriminate.
    inversion Heq as [[H2 H3]]. exact (IHc _ H2). }
  exact (Hsize _ _ H1).
Qed.

Lemma list_gpu_precedes_pass_through_witness :
  let inp := Sample.args (Sample.clip_rgbs 640 480)
               {[ "noise" := -1; "scale" := 1; "list_gpu" := 1 ]} in
  out (fst (waifu2xCreate Sample.env inp Sample.idle))
  = OutClip (VS.TextClip (VS.clip inp) (list_gpu_text Sample.env))
  /\ out (fst (waifu2xCreate Sample.env inp Sample.idle)) <> OutClip (VS.clip inp).
Proof.
  apply (list_gpu_precedes_pass_through Sample.env
           (Sample.args (Sample.clip_rgbs 640 480)
              {[ "noise" := -1; "scale" := 1; "list_gpu" := 1 ]})
           Sample.idle).
  - split; reflexivity.
  - reflexivity.
  - reflexivity.
  - reflexivity.
  - reflexivity.
  - reflexivity.
Defined.

(** ** Failure before the acquisition, in general *)

(** X14. Whenever a construction fails before the counter was
    incremented (unsupported clip format, or no GPU instance could be
    created), the handler nevertheless takes one off the counter (with
    wrap-around) and calls [ncnn::destroy_gpu_instance] exactly when the
    counter arrives at zero; no engine is constructed, no filter is
    registered, and the error names the check that failed. *)
Theorem failure_before_acquisition_takes_a_reference env inp w :
  ~ acquires env inp w ->
  let r := fst (waifu2xCreate env inp w) in
  let w' := snd (waifu2xCreate env inp w) in
  instance r = None
  /\ numGPUInstances w' = wrap_int (numGPUInstances w - 1)
  /\ gpu_destroyed (calls_since w w') = (wrap_int (numGPUInstances w - 1) =? 0)
  /\ engine_constructed (calls_since w w') = false
  /\ (out r = OutError (Some
        "waifu2x-ncnn-Vulkan: only constant RGB format 32 bit float input supported")
      \/ out r = OutError (Some "waifu2x-ncnn-Vulkan: failed to create GPU instance")).
Proof.
  intros Hna. cbv zeta.
  destruct (unsupported_format (VS.getVideoInfo (VS.clip inp))) eqn:Hf.
  - rewrite (create_unsupported_format _ _ _ Hf). cbn [fst snd instance out].
    rewrite (calls_since_release w _ [freeNode_call (VS.clip inp)]) by reflexivity.
    cbn [log numGPUInstances].
    split; [reflexivity |].
    split; [unfold release_gpu; cbn; destruct (_ =? 0); reflexivity |].
    split; [apply destroyed_in_release; reflexivity |].
    split; [apply no_engine_in_release; reflexivity |].
    left. reflexivity.
  - destruct (gpu_instance w || gpu_available env) eqn:Hg.
    + exfalso. apply Hna. split; assumption.
    + rewrite (create_gpu_unavailable _ _ _ Hf Hg). cbn [fst snd instance out].
      rewrite (calls_since_release w _
                 [freeNode_call (VS.clip inp); create_gpu_instance_call])
        by reflexivity.
      cbn [log numGPUInstances].
      split; [reflexivity |].
      split; [unfold release_gpu; cbn; destruct (_ =? 0); reflexivity |].
      split; [apply destroyed_in_release; reflexivity |].
      split; [apply no_engine_in_release; reflexivity |].
      right. reflexivity.
Qed.

Lemma failure_before_acquisition_takes_a_reference_witness :
  let inp := Sample.args Sample.clip_yuv {[ "noise" := 1 ]} in
  let r := fst (waifu2xCreate Sample.env inp Sample.idle) in
  let w' := snd (waifu2xCreate Sample.env inp Sample.idle) in
  instance r = None
  /\ numGPUInstances w' = wrap_int (numGPUInstances Sample.idle - 1)
  /\ gpu_destroyed (calls_since Sample.idle w')
     = (wrap_int (numGPUInstances Sample.idle - 1) =? 0)
  /\ engine_constructed (calls_since Sample.idle w') = false
  /\ (out r = OutError (Some
        "waifu2x-ncnn-Vulkan: only constant RGB format 32 bit float input supported")
      \/ out r = OutError (Some "waifu2x-ncnn-Vulkan: failed to create GPU instance")).
Proof.
  apply (failure_before_acquisition_takes_a_reference Sample.env
           (Sample.args Sample.clip_yuv {[ "noise" := 1 ]}) Sample.idle).
  intros [H _]. vm_compute in H. discriminate H.
Defined.

(** ** The file system *)

(** X15. A construction consults the storage at two points only: the
    open test of the param file of the resolved options (line 242) and the
    load of the engine on the param and bin paths (line 258). The plugin
    itself never opens the bin file or any other path, so two sets of
    surroundings that agree on whether that param file opens and on what
    the engine makes of that pair of paths give the same result and the
    same calls. *)
Theorem storage_is_consulted_at_two_points env f verdict inp w :
  f (param_path env inp) = file_opens env (param_path env inp) ->
  verdict (param_path env inp) (bin_path env inp)
  = weights_error env (param_path env inp) (bin_path env inp) ->
  waifu2xCreate (with_storage env f verdict) inp w = waifu2xCreate env inp w.
Proof.
  intros Hsame Hverdict. unfold param_path, bin_path in *.
  create_paths env inp w; rewrite Hpath.
  - apply (create_unsupported_format (with_storage env f verdict) inp w Hf).
  - apply (create_invalid (with_storage env f verdict) inp w c Hacq Hv).
  - apply (create_list_gpu (with_storage env f verdict) inp w Hacq Hv Hl).
  - apply (create_pass_through (with_storage env f verdict) inp w Hacq Hv Hl);
      change (resolved (with_storage env f verdict) inp) with (resolved env inp); lia.
  - apply (create_weights_rejected (with_storage env f verdict) inp w s Hacq Hv Hl Hp).
    + exact Hsame.
    + exact Hverdict.
  - assert (Hb' : builds_engine (with_storage env f verdict) inp).
    { destruct Hb as (? & ? & ? & ? & ?). repeat split; assumption. }
    apply (create_filter (with_storage env f verdict) inp w Hacq Hb').
  - apply (create_model_missing (with_storage env f verdict) inp w Hacq Hv Hl Hp).
    exact Hsame.
  - apply (create_gpu_unavailable (with_storage env f verdict) inp w Hf Hg).
Qed.

Lemma storage_is_consulted_at_two_points_witness :
  let inp := Sample.args (Sample.clip_rgbs 640 480) ∅ in
  let f := λ p, String.eqb p (param_path Sample.env inp) in
  let verdict := λ p b : string,
    if String.eqb b (bin_path Sample.env inp) then None else Some "unreadable" in
  waifu2xCreate (with_storage Sample.env f verdict) inp Sample.idle
  = waifu2xCreate Sample.env inp Sample.idle.
Proof.
  apply (storage_is_consulted_at_two_points Sample.env
           (λ p, String.eqb p
                   (param_path Sample.env (Sample.args (Sample.clip_rgbs 640 480) ∅)))
           (λ p b : string,
              if String.eqb b
                   (bin_path Sample.env (Sample.args (Sample.clip_rgbs 640 480) ∅))
              then None else Some "unreadable")
           (Sample.args (Sample.clip_rgbs 640 480) ∅) Sample.idle).
  - reflexivity.
  - reflexivity.
Defined.

(** ** Progress of the gate *)

Section GateProgress.

Import Frame Sched.

Lemma find_index_Some f l : forall i,
  find_index f l = Some i -> exists p, l !! i = Some p /\ f p = true.
Proof.
  induction l as [| x l IH]; intros i H; simpl in H; [discriminate |].
  destruct (f x) eqn:Hx.
  - inversion H; subst. exists x. auto.
  - destruct (find_index f l) as [j |] eqn:Hj; [| discriminate].
    simpl in H. inversion H; subst.
    destruct (IH j eq_refl) as (p & Hp & Hfp). exists p. auto.
Qed.

Lemma find_index_None f l :
  find_index f l = None -> Forall (λ p, f p = false) l.
Proof.
  induction l as [| x l IH]; intros H; simpl in H; [constructor |].
  destruct (f x) eqn:Hx; [discriminate |].
  destruct (find_index f l); [discriminate |].
  constructor; auto.
Qed.

Lemma count_zero f l : Forall (λ p, f p = false) l -> count f l = 0.
Proof.
  induction 1 as [| x l Hx _ IH]; [reflexivity |].
  rewrite count_cons, Hx, IH. reflexivity.
Qed.

Lemma work_insert (l : list pc) : forall i p q,
  l !! i = Some p ->
  (work (<[i:=q]> l) + remaining p = work l + remaining q)%nat.
Proof.
  unfold work. induction l as [| x l IH]; intros i p q Hi.
  - rewrite lookup_nil in Hi. discriminate.
  - destruct i as [| i].
    + simpl in Hi. inversion Hi; subst. simpl. lia.
    + simpl in Hi. specialize (IH i p q Hi).
      change (<[S i:=q]> (x :: l)) with (x :: <[i:=q]> l). simpl. lia.
Qed.

(** A step of [filter] leaves one statement less to execute. *)
Lemma filter_remaining p c p' c' :
  filter p c = Some (p', c') -> remaining p = S (remaining p').
Proof.
  destruct p; simpl; intros H; try discriminate.
  - destruct (0 <? c); inversion H; reflexivity.
  - inversion H; reflexivity.
  - inversion H; reflexivity.
Qed.

Lemma exec_advance_work i g g' :
  exec (advance i) g = Some g' ->
  work (threads g) = S (work (threads g'))
  /\ length (threads g') = length (threads g).
Proof.
  simpl. intros H.
  destruct (threads g !! i) as [p |] eqn:Hp; [| discriminate].
  destruct (filter p (counter g)) as [[p' c'] |] eqn:Hf; [| discriminate].
  inversion H; subst g'. cbn [threads].
  pose proof (filter_remaining _ _ _ _ Hf) as Hr.
  pose proof (work_insert (threads g) i p p' Hp) as Hw.
  split; [lia | apply length_insert].
Qed.

Lemma pick_enabled permits g i :
  gate_inv permits g -> 1 <= permits ->
  pick g = Some i -> exists g', exec (advance i) g = Some g'.
Proof.
  intros [Hc Hs] Hpos Hpick. unfold pick in Hpick.
  destruct (find_index holds_permit (threads g)) as [j |] eqn:Hh.
  - inversion Hpick; subst j.
    destruct (find_index_Some _ _ _ Hh) as (p & Hp & Hfp).
    simpl. rewrite Hp. destruct p; try discriminate; simpl; eauto.
  - destruct (find_index_Some _ _ _ Hpick) as (p & Hp & Hfp).
    pose proof (count_zero _ _ (find_index_None _ _ Hh)) as Hz.
    simpl. rewrite Hp. destruct p; try discriminate. simpl.
    replace (0 <? counter g) with true by lia. eauto.
Qed.

Lemma pick_None g : pick g = None -> all_finished g = true.
Proof.
  unfold pick, all_finished. intros H.
  destruct (find_index holds_permit (threads g)) eqn:Hh; [discriminate |].
  pose proof (find_index_None _ _ Hh) as F1.
  pose proof (find_index_None _ _ H) as F2.
  clear H Hh. induction F1 as [| p l Hp F1 IH]; [reflexivity |].
  inversion F2 as [| ? ? Hq F2']; subst. simpl.
  rewrite (IH F2').
  destruct p; try discriminate; reflexivity.
Qed.

Lemma all_finished_no_holder g :
  all_finished g = true -> count holds_permit (threads g) = 0.
Proof.
  unfold all_finished. induction (threads g) as [| p l IH]; intros H; [reflexivity |].
  simpl in H. apply andb_true_iff in H as [Hp Hl].
  rewrite count_cons, (IH Hl). destruct p; try discriminate; reflexivity.
Qed.

Lemma work_zero_finished g : work (threads g) = 0%nat -> all_finished g = true.
Proof.
  unfold work, all_finished. induction (threads g) as [| p l IH]; intros H;
    [reflexivity |].
  simpl in H. destruct p; simpl in H; try discriminate.
  simpl. apply IH. exact H.
Qed.

Lemma drain_spec permits : forall fuel g,
  gate_inv permits g -> 1 <= permits ->
  (work (threads g) <= fuel)%nat ->
  run (fst (drain fuel g)) g = Some (snd (drain fuel g))
  /\ all_finished (snd (drain fuel g)) = true
  /\ gate_inv permits (snd (drain fuel g))
  /\ length (threads (snd (drain fuel g))) = length (threads g).
Proof.
  induction fuel as [| k IH]; intros g Hinv Hpos Hw.
  - simpl. repeat split; try apply Hinv.
    apply work_zero_finished. lia.
  - cbn [drain]. destruct (pick g) as [i |] eqn:Hpick.
    + destruct (pick_enabled _ _ _ Hinv Hpos Hpick) as [g' He].
      rewrite He.
      destruct (exec_advance_work _ _ _ He) as [Hwork Hlen].
      pose proof (gate_inv_exec _ _ _ _ Hinv He) as Hinv'.
      destruct (IH g' Hinv' Hpos ltac:(lia)) as (Hrun & Hfin & Hinv'' & Hlen').
      destruct (drain k g') as [s g'']. cbn [fst snd] in *.
      cbn [run]. rewrite He.
      repeat split; try assumption; try apply Hinv''. lia.
    + simpl. repeat split; try apply Hinv. apply pick_None. exact Hpick.
Qed.

End GateProgress.

(** The gate of a registered filter keeps its invariant and has at least
    one permit. *)
Lemma registered_gate_inv env inp w d sched g :
  instance (fst (waifu2xCreate env inp w)) = Some d ->
  Frame.run sched (Frame.gate_of d) = Some g ->
  1 <= gpuThread (resolved env inp)
  /\ Frame.gate_inv (gpuThread (resolved env inp)) g.
Proof.
  intros Hi Hrun. destruct (created_inv _ _ _ _ Hi) as (_ & Hb & ->).
  destruct Hb as (Hv & _).
  pose proof (validate_none_all _ _ Hv) as Hall.
  cbn [forallb stated_order satisfies] in Hall.
  assert (Hpos : 1 <= gpuThread (resolved env inp)) by lia.
  split; [exact Hpos |].
  eapply gate_inv_run; [| exact Hrun]. apply gate_inv_initial. lia.
Qed.

(** X16. The gate of a registered filter never deadlocks: in every
    reachable state in which some frame request is not finished, some thread
    can execute its next statement. A thread is held up only at [acquire],
    and only while other threads hold all permits. *)
Theorem gate_never_deadlocks env inp w d sched g :
  instance (fst (waifu2xCreate env inp w)) = Some d ->
  Frame.run sched (Frame.gate_of d) = Some g ->
  Sched.all_finished g = false ->
  exists i g', Sched.pick g = Some i /\ Frame.exec (Frame.advance i) g = Some g'.
Proof.
  intros Hi Hrun Hnf.
  destruct (registered_gate_inv _ _ _ _ _ _ Hi Hrun) as [Hpos Hinv].
  destruct (Sched.pick g) as [i |] eqn:Hpick.
  - destruct (pick_enabled _ _ _ Hinv Hpos Hpick) as [g' He]. eauto.
  - rewrite (pick_None _ Hpick) in Hnf. discriminate.
Qed.

Lemma gate_never_deadlocks_witness :
  exists i g',
    Sched.pick {| Frame.counter := 0;
                  Frame.threads := [Frame.at_acquire; Frame.in_process;
                                    Frame.at_release] |} = Some i
    /\ Frame.exec (Frame.advance i)
         {| Frame.counter := 0;
            Frame.threads := [Frame.at_acquire; Frame.in_process;
                              Frame.at_release] |} = Some g'.
Proof.
  apply (gate_never_deadlocks Sample.env
           (Sample.args (Sample.clip_rgbs 640 480) ∅) Sample.idle
           (instance_for Sample.env (Sample.args (Sample.clip_rgbs 640 480) ∅))
           [Frame.request; Frame.request; Frame.request;
            Frame.advance 1; Frame.advance 2; Frame.advance 2]).
  - reflexivity.
  - reflexivity.
  - reflexivity.
Defined.

(** X17. From every reachable state of the gate of a registered filter,
    the pending frame requests can all be served: letting the picked threads
    advance, one statement at a time, for as many steps as statements are
    left, is a valid schedule that ends with every thread past [release]
    and all gpu_thread permits back in the semaphore. *)
Theorem gate_drains env inp w d sched g :
  instance (fst (waifu2xCreate env inp w)) = Some d ->
  Frame.run sched (Frame.gate_of d) = Some g ->
  let s := fst (Sched.drain (Sched.work (Frame.threads g)) g) in
  let g' := snd (Sched.drain (Sched.work (Frame.threads g)) g) in
  Frame.run s g = Some g'
  /\ Sched.all_finished g' = true
  /\ Frame.counter g' = gpuThread (resolved env inp)
  /\ Frame.in_flight g' = 0
  /\ length (Frame.threads g') = length (Frame.threads g).
Proof.
  intros Hi Hrun s g'.
  destruct (registered_gate_inv _ _ _ _ _ _ Hi Hrun) as [Hpos Hinv].
  destruct (drain_spec _ (Sched.work (Frame.threads g)) g Hinv Hpos (le_n _))
    as (Hr & Hfin & [Hc Hs] & Hlen).
  fold s g' in Hr, Hfin, Hc, Hs, Hlen.
  pose proof (all_finished_no_holder _ Hfin) as Hz.
  pose proof (in_flight_le_holders g') as Hle.
  pose proof (count_nonneg Frame.is_in_process (Frame.threads g')) as Hnn.
  unfold Frame.in_flight in *.
  repeat split; try assumption; lia.
Qed.

Lemma gate_drains_witness :
  let g := {| Frame.counter := 0;
              Frame.threads := [Frame.at_acquire; Frame.in_process;
                                Frame.at_release] |} in
  let s := fst (Sched.drain (Sched.work (Frame.threads g)) g) in
  let g' := snd (Sched.drain (Sched.work (Frame.threads g)) g) in
  Frame.run s g = Some g'
  /\ Sched.all_finished g' = true
  /\ Frame.counter g'
     = gpuThread (resolved Sample.env (Sample.args (Sample.clip_rgbs 640 480) ∅))
  /\ Frame.in_flight g' = 0
  /\ length (Frame.threads g') = length (Frame.threads g).
Proof.
  apply (gate_drains Sample.env
           (Sample.args (Sample.clip_rgbs 640 480) ∅) Sample.idle
           (instance_for Sample.env (Sample.args (Sample.clip_rgbs 640 480) ∅))
           [Frame.request; Frame.request; Frame.request;
            Frame.advance 1; Frame.advance 2; Frame.advance 2]).
  - reflexivity.
  - reflexivity.
Defined.

(** ** Serving frames *)

Lemma registered_dimensions env inp w d :
  instance (fst (waifu2xCreate env inp w)) = Some d ->
  (scale (resolved env inp) = 1 \/ scale (resolved env inp) = 2)
  /\ 0 < VS.width (VS.getVideoInfo (VS.clip inp))
  /\ 0 < VS.height (VS.getVideoInfo (VS.clip inp)).
Proof.
  intros Hi.
  destruct (created_inv _ _ _ _ Hi) as (Hacq & Hb & _).
  destruct Hb as (Hv & _).
  pose proof (validate_none_all _ _ Hv) as Hall.
  cbn [forallb stated_order satisfies] in Hall.
  destruct Hacq as [Hf _].
  unfold unsupported_format, VS.isConstantVideoFormat in Hf.
  apply orb_false_iff in Hf as [Hf _].
  apply orb_false_iff in Hf as [Hf _].
  apply orb_false_iff in Hf as [Hf _].
  apply negb_false_iff in Hf.
  lia.
Qed.

(** X18. When all frames are ready, a registered filter whose source
    delivers frames of the announced geometry returns a new frame of the
    source format with the dimensions that the construction computed at
    lines 206-207: the width and the height of the source frame times the
    scale that the engine was configured with, in [int] arithmetic, hence
    exactly these products whenever they fit an [int]. The engine is invoked
    exactly once, with the dimensions of the source frame and with both
    strides counted in samples, between an acquire and a release of the
    semaphore; the source frame is freed afterwards. *)
Theorem served_frame_is_scaled env inp w d host n :
  instance (fst (waifu2xCreate env inp w)) = Some d ->
  PerFrame.constant_geometry host (VS.clip inp) ->
  let src := PerFrame.upstream host (VS.clip inp) n in
  let res := PerFrame.waifu2xGetFrame n PerFrame.arAllFramesReady d host in
  let bps := VS.bytesPerSample (VS.format (VS.getVideoInfo (VS.clip inp))) in
  exists dst,
    fst res = Some dst
    /\ Engine.scale <$> waifu2x d = Some (scale (resolved env inp))
    /\ PerFrame.frame_width dst
       = wrap_int (PerFrame.frame_width src * scale (resolved env inp))
    /\ PerFrame.frame_height dst
       = wrap_int (PerFrame.frame_height src * scale (resolved env inp))
    /\ (PerFrame.frame_width src * scale (resolved env inp) <= Cpp.INT_MAX ->
        PerFrame.frame_width dst = PerFrame.frame_width src * scale (resolved env inp))
    /\ (PerFrame.frame_height src * scale (resolved env inp) <= Cpp.INT_MAX ->
        PerFrame.frame_height dst = PerFrame.frame_height src * scale (resolved env inp))
    /\ PerFrame.frame_format dst = PerFrame.frame_format src
    /\ snd res
       = [PerFrame.getFrameFilter n (VS.clip inp);
          PerFrame.newVideoFrame (PerFrame.frame_format dst)
            (PerFrame.frame_width dst) (PerFrame.frame_height dst);
          PerFrame.acquire;
          PerFrame.process (PerFrame.frame_width src) (PerFrame.frame_height src)
            (Z.quot (PerFrame.frame_stride src) bps)
            (Z.quot (PerFrame.frame_stride dst) bps);
          PerFrame.release;
          PerFrame.freeFrame src].
Proof.
  intros Hi Hgeo src res bps.
  destruct (registered_dimensions _ _ _ _ Hi) as (Hs & Hwpos & Hhpos).
  destruct (created_inv _ _ _ _ Hi) as (_ & _ & ->).
  destruct (Hgeo n) as (Hw & Hh & Hfmt). fold src in Hw, Hh, Hfmt.
  assert (Hfit : forall x, 0 < x -> x * scale (resolved env inp) <= Cpp.INT_MAX ->
                 wrap_int (x * scale (resolved env inp))
                 = x * scale (resolved env inp)).
  { intros x Hx Hle. apply wrap_int_id.
    unfold in_int_range, Cpp.INT_MIN, Cpp.INT_MAX in *.
    destruct Hs as [Hs | Hs]; rewrite Hs in *; lia. }
  eexists. split; [reflexivity |].
  split; [reflexivity |].
  split; [rewrite Hw; reflexivity |].
  split; [rewrite Hh; reflexivity |].
  split; [intros Hle; rewrite Hw in *; apply (Hfit _ Hwpos Hle) |].
  split; [intros Hle; rewrite Hh in *; apply (Hfit _ Hhpos Hle) |].
  split; [rewrite Hfmt; reflexivity |].
  reflexivity.
Qed.

Lemma served_frame_is_scaled_witness :
  let inp := Sample.args (Sample.clip_rgbs 640 480) ∅ in
  let host := {| PerFrame.upstream := λ node _,
                   {| PerFrame.frame_format := VS.format (VS.getVideoInfo node);
                      PerFrame.frame_width := VS.width (VS.getVideoInfo node);
                      PerFrame.frame_height := VS.height (VS.getVideoInfo node);
                      PerFrame.frame_stride := 2560 |};
                 PerFrame.alloc_stride := λ _ width, 4 * width |} in
  let d := instance_for Sample.env inp in
  let src := PerFrame.upstream host (VS.clip inp) 7 in
  let res := PerFrame.waifu2xGetFrame 7 PerFrame.arAllFramesReady d host in
  let bps := VS.bytesPerSample (VS.format (VS.getVideoInfo (VS.clip inp))) in
  exists dst,
    fst res = Some dst
    /\ Engine.scale <$> waifu2x d = Some (scale (resolved Sample.env inp))
    /\ PerFrame.frame_width dst
       = wrap_int (PerFrame.frame_width src * scale (resolved Sample.env inp))
    /\ PerFrame.frame_height dst
       = wrap_int (PerFrame.frame_height src * scale (resolved Sample.env inp))
    /\ (PerFrame.frame_width src * scale (resolved Sample.env inp) <= Cpp.INT_MAX ->
        PerFrame.frame_width dst
        = PerFrame.frame_width src * scale (resolved Sample.env inp))
    /\ (PerFrame.frame_height src * scale (resolved Sample.env inp) <= Cpp.INT_MAX ->
        PerFrame.frame_height dst
        = PerFrame.frame_height src * scale (resolved Sample.env inp))
    /\ PerFrame.frame_format dst = PerFrame.frame_format src
    /\ snd res
       = [PerFrame.getFrameFilter 7 (VS.clip inp);
          PerFrame.newVideoFrame (PerFrame.frame_format dst)
            (PerFrame.frame_width dst) (PerFrame.frame_height dst);
          PerFrame.acquire;
          PerFrame.process (PerFrame.frame_width src) (PerFrame.frame_height src)
            (Z.quot (PerFrame.frame_stride src) bps)
            (Z.quot (PerFrame.frame_stride dst) bps);
          PerFrame.release;
          PerFrame.freeFrame src].
Proof.
  apply (served_frame_is_scaled Sample.env
           (Sample.args (Sample.clip_rgbs 640 480) ∅) Sample.idle
           (instance_for Sample.env (Sample.args (Sample.clip_rgbs 640 480) ∅))
           {| PerFrame.upstream := λ node _,
                {| PerFrame.frame_format := VS.format (VS.getVideoInfo node);
                   PerFrame.frame_width := VS.width (VS.getVideoInfo node);
                   PerFrame.frame_height := VS.height (VS.getVideoInfo node);
                   PerFrame.frame_stride := 2560 |};
              PerFrame.alloc_stride := λ _ width, 4 * width |}
           7).
  - reflexivity.
  - intros k. repeat split.
Defined.

(** X19. Output frame n is made from source frame n alone: whatever the
    activation reason, every frame that [waifu2xGetFrame] requests or
    fetches is frame n of the filter's own source node; a frame is returned
    and the engine is invoked only when all frames are ready; and each
    fetched frame is freed exactly once. *)
Theorem frame_n_comes_from_source_frame_n n reason d host :
  let res := PerFrame.waifu2xGetFrame n reason d host in
  Forall (λ c, match PerFrame.source_index c with
               | Some (m, nd) => m = n /\ nd = node d
               | None => True
               end) (snd res)
  /\ (is_Some (fst res) <-> reason = PerFrame.arAllFramesReady)
  /\ (length (List.filter PerFrame.is_process (snd res))
      = match fst res with Some _ => 1%nat | None => 0%nat end)
  /\ List.filter (λ c, match c with PerFrame.freeFrame _ => true | _ => false end)
       (snd res)
     = (λ c, PerFrame.freeFrame (PerFrame.upstream host (node d) n))
         <$> List.filter (λ c, match c with
                              | PerFrame.getFrameFilter _ _ => true
                              | _ => false
                              end) (snd res).
Proof.
  destruct reason; cbn.
  - repeat split; try (repeat constructor; fail).
    + intros [x Hx]. discriminate.
    + discriminate.
  - repeat split; try (repeat constructor; fail). eauto.
  - repeat split; try (repeat constructor; fail).
    + intros [x Hx]. discriminate.
    + discriminate.
Qed.

(** ** When a filter is registered *)



(** X21. The short circuits need no weights: when validation passes and
    either list_gpu is set or the options are noise -1 with scale 1, the
    result is the same on every file system, also on one without any model
    file. *)
Theorem short_circuits_need_no_weights env f inp w :
  acquires env inp w ->
  validate env (resolved env inp) = None ->
  list_gpu inp = true
  \/ (noise (resolved env inp) = -1 /\ scale (resolved env inp) = 1) ->
  waifu2xCreate (with_files env f) inp w = waifu2xCreate env inp w
  /\ instance (fst (waifu2xCreate env inp w)) = None
  /\ exists n, out (fst (waifu2xCreate env inp w)) = OutClip n
               \/ (text_error env <> None /\ list_gpu inp = true).
Proof.
  intros Hacq Hv Hsc.
  destruct (list_gpu inp) eqn:Hl.
  - rewrite (create_list_gpu (with_files env f) inp w Hacq Hv Hl).
    rewrite (create_list_gpu env inp w Hacq Hv Hl).
    split; [reflexivity |]. split; [reflexivity |].
    cbn [fst out]. destruct (text_error env) as [e |].
    + exists (VS.clip inp). right. split; [discriminate | reflexivity].
    + eexists. left. reflexivity.
  - destruct Hsc as [Hsc | [Hn Hs]]; [discriminate |].
    rewrite (create_pass_through (with_files env f) inp w Hacq Hv Hl Hn Hs).
    rewrite (create_pass_through env inp w Hacq Hv Hl Hn Hs).
    split; [reflexivity |]. split; [reflexivity |].
    eexists. left. reflexivity.
Qed.

Lemma short_circuits_need_no_weights_witness :
  let inp := Sample.args (Sample.clip_rgbs 640 480) {[ "list_gpu" := 1 ]} in
  waifu2xCreate (with_files Sample.env (λ _, false)) inp Sample.idle
  = waifu2xCreate Sample.env inp Sample.idle
  /\ instance (fst (waifu2xCreate Sample.env inp Sample.idle)) = None
  /\ exists n, out (fst (waifu2xCreate Sample.env inp Sample.idle)) = OutClip n
               \/ (text_error Sample.env <> None /\ list_gpu inp = true).
Proof.
  apply (short_circuits_need_no_weights Sample.env (λ _, false)
           (Sample.args (Sample.clip_rgbs 640 480) {[ "list_gpu" := 1 ]})
           Sample.idle).
  - split; reflexivity.
  - reflexivity.
  - left. reflexivity.
Defined.


Example rejected_weights_drop_the_engine :
  let inp := Sample.args (Sample.clip_rgbs 640 480) ∅ in
  let env := with_storage Sample.env (file_opens Sample.env)
               (λ _ _, Some "failed to load model") in
  let r := waifu2xCreate env inp Sample.idle in
  List.filter is_engine_call (calls_since Sample.idle (snd r))
  = [Waifu2x_load_call
       "/usr/lib/vapoursynth/models/models-cunet/noise0_scale2.0x_model.param"
       "/usr/lib/vapoursynth/models/models-cunet/noise0_scale2.0x_model.bin"
       false;
     Waifu2x_new_call 0 false 1]
  /\ fst r = {| out := OutError (Some "waifu2x-ncnn-Vulkan: failed to load model");
                instance := None |}
  /\ numGPUInstances (snd r) = 0
  /\ gpu_instance (snd r) = false.
Proof.
  vm_compute. repeat split; reflexivity.
Qed.

(** X23. The defaults of the options are valid by themselves: with no
    optional argument, validation can fail only on the device, that is on
    the default device id or on the two permits against its compute-queue
    count. *)
Theorem defaults_fail_only_on_device env inp :
  VS.ints inp = ∅ ->
  first_violated env (resolved env inp) = None
  \/ first_violated env (resolved env inp) = Some gpu_id_valid
  \/ first_violated env (resolved env inp) = Some gpu_thread_range.
Proof.
  intros He. destruct (resolved_without_arguments env inp He) as [Hres _].
  rewrite Hres. unfold first_violated, stated_order. cbn [List.find satisfies].
  cbn [noise scale tile_w tile_h model gpuId gpuThread].
  replace (negb ((-1 <=? 0) && (0 <=? 3))) with false by reflexivity.
  replace (negb ((2 =? 1) || (2 =? 2))) with false by reflexivity.
  replace (negb (32 <=? Z.max (VS.width (VS.getVideoInfo (VS.clip inp))) 32))
    with false by lia.
  replace (negb (32 <=? Z.max (VS.height (VS.getVideoInfo (VS.clip inp))) 32))
    with false by lia.
  replace (negb ((2 =? 0) || (2 =? 1) || (2 =? 2))) with false by reflexivity.
  replace (negb (implb (2 =? 1) (2 =? 2))) with false by reflexivity.
  destruct (negb _); [auto |].
  destruct (negb _); auto.
Qed.

Lemma defaults_fail_only_on_device_witness :
  let inp := Sample.args (Sample.clip_rgbs 8 8) ∅ in
  first_violated Sample.env (resolved Sample.env inp) = None
  \/ first_violated Sample.env (resolved Sample.env inp) = Some gpu_id_valid
  \/ first_violated Sample.env (resolved Sample.env inp) = Some gpu_thread_range.
Proof.
  apply (defaults_fail_only_on_device Sample.env
           (Sample.args (Sample.clip_rgbs 8 8) ∅)).
  reflexivity.
Defined.

(** ** The device listing and the device id *)

Lemma foldr_append_app (l1 l2 : list string) :
  foldr String.append "" (l1 ++ l2)
  = foldr String.append "" l1 +:+ foldr String.append "" l2.
Proof.
  induction l1 as [| x l1 IH]; [reflexivity |].
  simpl. rewrite IH, string_app_assoc. reflexivity.
Qed.

(** X24. The index that the device listing prints in front of a device is
    the gpu_id that selects this device: for every device, the text built
    by the loop of lines 168-169 consists of the lines of the devices before
    it, then the line with its position and its name, then further lines;
    and [get_gpu_info] at that position is this device, the position being a
    valid device id. *)
Theorem listed_index_selects_device env gs1 g gs2 :
  gpus env = gs1 ++ g :: gs2 ->
  let i := length gs1 in
  (exists rest,
      list_gpu_text env
      = device_listing gs1
        +:+ (Cpp.to_string (Z.of_nat i) +:+ ": " +:+ Ncnn.device_name g +:+ newline)
        +:+ rest)
  /\ get_gpu_info env (Z.of_nat i) = g
  /\ 0 <= Z.of_nat i < get_gpu_count env.
Proof.
  intros Hg i. split; [| split].
  - rewrite list_gpu_text_listing, Hg. unfold device_listing.
    rewrite imap_app, foldr_append_app, imap_cons. cbn [foldr].
    replace (length gs1 + 0)%nat with i by (subst i; lia).
    eexists; f_equal; unfold device_line;
      rewrite ?string_app_assoc; reflexivity.
  - unfold get_gpu_info. rewrite Hg, Nat2Z.id. subst i.
    rewrite app_nth2 by lia. rewrite Nat.sub_diag. reflexivity.
  - unfold get_gpu_count. rewrite Hg, length_app. simpl length. lia.
Qed.

Lemma listed_index_selects_device_witness :
  let g := {| Ncnn.device_name := "GPU B"; Ncnn.compute_queue_count := 1 |} in
  let gs1 := [ {| Ncnn.device_name := "GPU A"; Ncnn.compute_queue_count := 4 |} ] in
  let i := length gs1 in
  (exists rest,
      list_gpu_text Sample.env
      = device_listing gs1
        +:+ (Cpp.to_string (Z.of_nat i) +:+ ": " +:+ Ncnn.device_name g +:+ newline)
        +:+ rest)
  /\ get_gpu_info Sample.env (Z.of_nat i) = g
  /\ 0 <= Z.of_nat i < get_gpu_count Sample.env.
Proof.
  apply (listed_index_selects_device Sample.env
           [ {| Ncnn.device_name := "GPU A"; Ncnn.compute_queue_count := 4 |} ]
           {| Ncnn.device_name := "GPU B"; Ncnn.compute_queue_count := 1 |}
           []).
  reflexivity.
Defined.

(** ** Weight files and configurations *)

Lemma string_app_inj_l (a b c : string) : a +:+ b = a +:+ c -> b = c.
Proof.
  induction a as [| x a IH]; intros H; [exact H |].
  change (String x (a +:+ b) = String x (a +:+ c)) in H.
  inversion H. auto.
Qed.

(** The param path of validated options: the models directory, the
    directory of the variant, the artifact. *)
Lemma param_path_validated env inp :
  validate env (resolved env inp) = None ->
  param_path env inp
  = (plugin_dir env +:+ "/models")
    +:+ (variant_dir (model (resolved env inp)) +:+ "/"
         +:+ artifact (noise (resolved env inp)) (scale (resolved env inp))
         +:+ ".param").
Proof.
  intros Hv. pose proof (validate_none_all _ _ Hv) as Hall.
  cbn [forallb stated_order satisfies] in Hall.
  unfold param_path, model_dir_and_prepadding, model_paths, variant_dir, artifact.
  fold (plugin_dir env).
  assert (Hm : model (resolved env inp) = 0 \/ model (resolved env inp) = 1
               \/ model (resolved env inp) = 2) by lia.
  assert (Hn : noise (resolved env inp) = -1 \/ noise (resolved env inp) = 0
               \/ noise (resolved env inp) = 1 \/ noise (resolved env inp) = 2
               \/ noise (resolved env inp) = 3) by lia.
  assert (Hs : scale (resolved env inp) = 1 \/ scale (resolved env inp) = 2) by lia.
  destruct Hm as [-> | [-> | ->]];
    destruct Hn as [-> | [-> | [-> | [-> | ->]]]];
    destruct Hs as [-> | ->];
    simpl; rewrite string_app_assoc; f_equal; vm_compute; reflexivity.
Qed.

Lemma tails_distinct_holds : tails_distinct = true.
Proof. vm_compute. reflexivity. Qed.

(** X25. Among registered filters of one installation, the param file
    that was loaded identifies the configuration: two registered filters
    with the same param path have the same model, noise level and scale. *)
Theorem weights_identify_configuration env inp inp' w w' d d' :
  instance (fst (waifu2xCreate env inp w)) = Some d ->
  instance (fst (waifu2xCreate env inp' w')) = Some d' ->
  param_path env inp = param_path env inp' ->
  model (resolved env inp) = model (resolved env inp')
  /\ noise (resolved env inp) = noise (resolved env inp')
  /\ scale (resolved env inp) = scale (resolved env inp').
Proof.
  intros Hi Hi' Hpath.
  destruct (created_inv _ _ _ _ Hi) as (_ & (Hv & _ & Hp & _) & _).
  destruct (created_inv _ _ _ _ Hi') as (_ & (Hv' & _ & Hp' & _) & _).
  rewrite (param_path_validated _ _ Hv), (param_path_validated _ _ Hv') in Hpath.
  apply string_app_inj_l in Hpath. fold (weights_tail (model (resolved env inp))
    (noise (resolved env inp)) (scale (resolved env inp))) in Hpath.
  fold (weights_tail (model (resolved env inp'))
    (noise (resolved env inp')) (scale (resolved env inp'))) in Hpath.
  pose proof (validate_none_all _ _ Hv) as Hall.
  pose proof (validate_none_all _ _ Hv') as Hall'.
  cbn [forallb stated_order satisfies] in Hall, Hall'.
  pose proof tails_distinct_holds as T. unfold tails_distinct in T. cbv zeta in T.
  rewrite forallb_forall in T.
  specialize (T (model (resolved env inp)) ltac:(simpl; lia)).
  rewrite forallb_forall in T.
  specialize (T (noise (resolved env inp)) ltac:(simpl; lia)).
  rewrite forallb_forall in T.
  specialize (T (scale (resolved env inp)) ltac:(simpl; lia)).
  rewrite forallb_forall in T.
  specialize (T (model (resolved env inp')) ltac:(simpl; lia)).
  rewrite forallb_forall in T.
  specialize (T (noise (resolved env inp')) ltac:(simpl; lia)).
  rewrite forallb_forall in T.
  specialize (T (scale (resolved env inp')) ltac:(simpl; lia)).
  rewrite Hp, Hp', Hpath, String.eqb_refl in T. cbn [negb andb implb] in T.
  lia.
Qed.

Lemma weights_identify_configuration_witness :
  let inp := Sample.args (Sample.clip_rgbs 640 480) {[ "noise" := 2; "tta" := 1 ]} in
  let inp' := Sample.args (Sample.clip_rgbs 320 240) {[ "noise" := 2; "gpu_thread" := 1 ]} in
  model (resolved Sample.env inp) = model (resolved Sample.env inp')
  /\ noise (resolved Sample.env inp) = noise (resolved Sample.env inp')
  /\ scale (resolved Sample.env inp) = scale (resolved Sample.env inp').
Proof.
  apply (weights_identify_configuration Sample.env
           (Sample.args (Sample.clip_rgbs 640 480) {[ "noise" := 2; "tta" := 1 ]})
           (Sample.args (Sample.clip_rgbs 320 240) {[ "noise" := 2; "gpu_thread" := 1 ]})
           Sample.idle Sample.one_alive
           (instance_for Sample.env
              (Sample.args (Sample.clip_rgbs 640 480) {[ "noise" := 2; "tta" := 1 ]}))
           (instance_for Sample.env
              (Sample.args (Sample.clip_rgbs 320 240)
                 {[ "noise" := 2; "gpu_thread" := 1 ]}))).
  - reflexivity.
  - reflexivity.
  - reflexivity.
Defined.
